(** * zombie-nginx: the configuration translation engine of [appconf.py]

    A shallow embedding of [appconf.py] and the properties of its
    specification.  The program reads a YAML document, turns it into a tree
    of nginx directives and prints that tree.

    Conventions of the embedding:
    - Python objects are values of [pyval]; mapping keys are strings; numbers
      are integers.
    - A YAML document is a finite tree of such values.  An alias of a node
      that the program only reads is the same as a copy of the node.  The
      program assigns to one kind of node, the mapping of an upstream entry
      ([config['name'] = ...]): a mapping that is reached at several places
      of the document (through an alias of it, or of a node around it) is a
      [VAnchored a d] at each of them, [a] being the identity of the one
      Python object and [d] its items as loaded.  What has been assigned to
      such an object since the load is in the process state, so that every
      place sees it.  A mapping that [parse_single_upstream] assigns to is
      taken to be used as an upstream entry only.
    - A Python [str] is a [string]; its characters are the [ascii] of the
      string.
    - A raised exception is a [Raise e] result; the process state (the
      anonymous-upstream counter, the Let's Encrypt hand-off file and the
      standard output) is threaded through the monad [M] and survives a
      raise, as in Python.
    - [str()] of a value that is not a string, as f-strings compute it, is
      the parameter [py_str] of the generator section. *)

From Stdlib Require Import Ascii.
From stdpp Require Import base option list strings pretty gmap.

(** ** Python values *)

Unset Elimination Schemes.
Inductive pyval : Type :=
  | VNone
  | VBool (b : bool)
  | VInt (z : Z)
  | VStr (s : string)
  | VList (l : list pyval)
  | VTuple (l : list pyval)
  | VDict (d : list (string * pyval))
  | VAnchored (a : N) (d : list (string * pyval)).
Set Elimination Schemes.

Global Instance pyval_inhabited : Inhabited pyval := populate VNone.

Global Instance pyval_eq_dec : EqDecision pyval.
Proof.
  refine (fix go (x y : pyval) {struct x} : Decision (x = y) :=
    let _ : EqDecision pyval := @go in
    match x, y with
    | VNone, VNone => left _
    | VBool a, VBool b => cast_if (decide (a = b))
    | VInt a, VInt b => cast_if (decide (a = b))
    | VStr a, VStr b => cast_if (decide (a = b))
    | VList a, VList b => cast_if (decide (a = b))
    | VTuple a, VTuple b => cast_if (decide (a = b))
    | VDict a, VDict b => cast_if (decide (a = b))
    | VAnchored a d, VAnchored b e => cast_if_and (decide (a = b)) (decide (d = e))
    | _, _ => right _
    end); abstract congruence.
Defined.

(** ** Exceptions and results *)

Inductive exn : Type :=
  | Exception (msg : string)
  | NotImplementedError (msg : string)
  | KeyError (key : pyval)
  | IndexError
  | TypeError
  | AttributeError
  | FileNotFoundError
  | OSError (msg : string)
  | YAMLError (msg : string)
  | SystemExit (status : Z).

Global Instance exn_eq_dec : EqDecision exn.
Proof. solve_decision. Defined.

Inductive result (A : Type) : Type :=
  | Ok (a : A)
  | Raise (e : exn).
Arguments Ok {A} a.
Arguments Raise {A} e.

Global Instance result_ret : MRet result := @Ok.
Global Instance result_bind : MBind result := λ A B f m,
  match m with
  | Ok a => f a
  | Raise e => Raise e
  end.

Definition is_ok {A} (r : result A) : bool :=
  match r with Ok _ => true | Raise _ => false end.

(** [for x in xs: acc = f(acc, x)], stopping at the first exception. *)
Fixpoint for_each {A B} (f : B → A → result B) (acc : B) (xs : list A) : result B :=
  match xs with
  | [] => Ok acc
  | x :: xs' => acc' ← f acc x; for_each f acc' xs'
  end.

(** ** Process state *)

Record process : Type := Process {
  _upstream_counter : Z;
  (** contents of [/tmp/le-domain.txt], [None] while the file does not exist *)
  le_domain_txt : option string;
  (** the lines written by [print], oldest first *)
  stdout : list string;
  (** the items of the anchored mappings that have been assigned to since the
      document was loaded, by object *)
  anchored : gmap N (list (string * pyval));
}.

Definition M (A : Type) : Type := process → process * result A.

Global Instance M_ret : MRet M := λ A a p, (p, Ok a).
Global Instance M_bind : MBind M := λ A B f m p,
  match m p with
  | (p', Ok a) => f a p'
  | (p', Raise e) => (p', Raise e)
  end.

Definition lift {A} (r : result A) : M A := λ p, (p, r).
Definition raise {A} (e : exn) : M A := lift (Raise e).

Definition print (line : string) : M unit := λ p,
  (Process (_upstream_counter p) (le_domain_txt p) (stdout p ++ [line]) (anchored p), Ok ()).

(** [global _upstream_counter; _upstream_counter += 1], returning the new value *)
Definition incr_upstream_counter : M Z := λ p,
  (Process (_upstream_counter p + 1)%Z (le_domain_txt p) (stdout p) (anchored p),
   Ok (_upstream_counter p + 1)%Z).

Definition set_le_domain_txt (contents : string) : M unit := λ p,
  (Process (_upstream_counter p) (Some contents) (stdout p) (anchored p), Ok ()).

Fixpoint for_each_M {A B} (f : B → A → M B) (acc : B) (xs : list A) : M B :=
  match xs with
  | [] => mret acc
  | x :: xs' => acc' ← f acc x; for_each_M f acc' xs'
  end.

(** ** Strings *)

(** [s * n] *)
Fixpoint str_repeat (s : string) (n : nat) : string :=
  match n with
  | O => ""
  | S n' => s +:+ str_repeat s n'
  end.

(** [' ' * n]; a negative [n] gives the empty string *)
Definition spaces (n : Z) : string := str_repeat " " (Z.to_nat n).

(** [list(s)] *)
Fixpoint str_chars (s : string) : list string :=
  match s with
  | EmptyString => []
  | String c s' => String c "" :: str_chars s'
  end.

(** [s.split(sep)] for a separator of one character *)
Fixpoint str_split (sep : ascii) (s : string) : list string :=
  match s with
  | EmptyString => [""]
  | String c s' =>
      if decide (c = sep) then "" :: str_split sep s'
      else match str_split sep s' with
           | [] => [String c ""]
           | w :: ws => String c w :: ws
           end
  end.

(** [sub in s] *)
Fixpoint str_contains (sub s : string) : bool :=
  String.prefix sub s ||
  match s with
  | EmptyString => false
  | String _ s' => str_contains sub s'
  end.

(** [s[n:]] *)
Fixpoint str_drop (n : nat) (s : string) : string :=
  match n, s with
  | O, _ => s
  | S n', String _ s' => str_drop n' s'
  | S _, EmptyString => ""
  end.

(** The double-quote character, as a string of length one. *)
Definition dquote : string := String "034"%char "".

(** ** Python operations on values *)

(** [bool(v)] *)
Definition py_truthy (v : pyval) : bool :=
  match v with
  | VNone => false
  | VBool b => b
  | VInt z => negb (z =? 0)%Z
  | VStr s => negb (String.eqb s "")
  | VList l | VTuple l => match l with [] => false | _ => true end
  | VDict d | VAnchored _ d => match d with [] => false | _ => true end
  end.

(** [v == s] for a string [s] *)
Definition py_eq_str (v : pyval) (s : string) : bool :=
  match v with
  | VStr s' => String.eqb s' s
  | _ => false
  end.

(** A [dict] is the list of its items in insertion order. *)
Fixpoint dict_lookup (key : string) (d : list (string * pyval)) : option pyval :=
  match d with
  | [] => None
  | (k, x) :: d' => if decide (k = key) then Some x else dict_lookup key d'
  end.

Fixpoint dict_insert (key : string) (x : pyval) (d : list (string * pyval))
    : list (string * pyval) :=
  match d with
  | [] => [(key, x)]
  | (k, y) :: d' =>
      if decide (k = key) then (k, x) :: d' else (k, y) :: dict_insert key x d'
  end.

(** [key in v] *)
Definition py_contains (key : string) (v : pyval) : result bool :=
  match v with
  | VDict d | VAnchored _ d => Ok (bool_decide (is_Some (dict_lookup key d)))
  | VList l | VTuple l => Ok (existsb (λ x, py_eq_str x key) l)
  | VStr s => Ok (str_contains key s)
  | _ => Raise TypeError
  end.

(** [v[key]] for a string [key] *)
Definition py_getitem (v : pyval) (key : string) : result pyval :=
  match v with
  | VDict d | VAnchored _ d =>
      match dict_lookup key d with
      | Some x => Ok x
      | None => Raise (KeyError (VStr key))
      end
  | _ => Raise TypeError
  end.

(** The mapping [v] as it is now: the items of an anchored mapping that has
    been assigned to are those of the process state.  The program assigns to
    the mappings of upstream entries, and reads them here before it does. *)
Definition current (v : pyval) : M pyval := λ p,
  (p, Ok match v with
         | VAnchored a d => VAnchored a (default d (anchored p !! a))
         | _ => v
         end).

(** [v[key] = x] for a string [key], returning the object as it is then.  An
    assignment to an anchored mapping is to the one object behind all its
    aliases. *)
Definition py_setitem (v : pyval) (key : string) (x : pyval) : M pyval := λ p,
  match v with
  | VDict d => (p, Ok (VDict (dict_insert key x d)))
  | VAnchored a d =>
      let d' := dict_insert key x (default d (anchored p !! a)) in
      (Process (_upstream_counter p) (le_domain_txt p) (stdout p) (<[a := d']> (anchored p)),
       Ok (VAnchored a d'))
  | _ => (p, Raise TypeError)
  end.

(** [yaml.safe_load] builds the document from new objects: none of them has
    been assigned to. *)
Definition new_document : M unit := λ p,
  (Process (_upstream_counter p) (le_domain_txt p) (stdout p) ∅, Ok ()).

(** [v.get(key, default)] *)
Definition py_get (v : pyval) (key : string) (default : pyval) : result pyval :=
  match v with
  | VDict d | VAnchored _ d => Ok (from_option id default (dict_lookup key d))
  | _ => Raise AttributeError
  end.

(** [v.items()] *)
Definition py_items (v : pyval) : result (list (string * pyval)) :=
  match v with
  | VDict d | VAnchored _ d => Ok d
  | _ => Raise AttributeError
  end.

(** [iter(v)], the elements a [for] loop goes through *)
Definition py_iter (v : pyval) : result (list pyval) :=
  match v with
  | VList l | VTuple l => Ok l
  | VStr s => Ok (VStr <$> str_chars s)
  | VDict d | VAnchored _ d => Ok ((λ kv, VStr kv.1) <$> d)
  | _ => Raise TypeError
  end.

(** [[v] if isinstance(v, (str, dict)) else v] *)
Definition wrap_single (v : pyval) : pyval :=
  match v with
  | VStr _ | VDict _ | VAnchored _ _ => VList [v]
  | _ => v
  end.

(** [v.split(' ')] *)
Definition py_split (v : pyval) : result (list string) :=
  match v with
  | VStr s => Ok (str_split " " s)
  | _ => Raise AttributeError
  end.

(** [sep.join(elems)] *)
Fixpoint py_join (sep : string) (elems : list pyval) : result string :=
  match elems with
  | [] => Ok ""
  | [VStr s] => Ok s
  | VStr s :: elems' => rest ← py_join sep elems'; Ok (s +:+ sep +:+ rest)
  | _ => Raise TypeError
  end.

(** [item[0]] *)
Definition py_getitem_0 (item : pyval) : result pyval :=
  match item with
  | VList l | VTuple l => from_option Ok (Raise IndexError) (head l)
  | VStr s => from_option Ok (Raise IndexError) (head (VStr <$> str_chars s))
  | VDict _ | VAnchored _ _ => Raise (KeyError (VInt 0))
  | _ => Raise TypeError
  end.

(** [k(elems[-1])] for the elements of a sequence, [empty] when there is none.
    The last element is handed to a continuation so that a function recursive
    on values can go on into it. *)
Definition with_last {A} (elems : list pyval) (k : pyval → A) (empty : A) : A :=
  (fix go (l : list pyval) : A :=
     match l with
     | [] => empty
     | [x] => k x
     | _ :: l' => go l'
     end) elems.
Global Arguments with_last : simpl never.

(** ** Static tables *)

(** A directive of string tokens, written as a tuple in the source. *)
Definition directive (tokens : list string) : pyval := VTuple (VStr <$> tokens).

(** A directive whose last element is a list of directives. *)
Definition block (tokens : list string) (children : list pyval) : pyval :=
  VTuple ((VStr <$> tokens) ++ [VList children]).

Definition _GZIP_TYPES : list string :=
  [ "text/plain"; "text/xml"; "text/css"; "application/x-javascript";
    "application/javascript"; "application/ecmascript"; "application/rss+xml";
    "application/xml"; "application/json" ].

Definition _HTTP_HEADERS : list (string * string) :=
  [ ("X-Frame-Options", "sameorigin");
    ("X-Content-Type-Options", "nosniff");
    ("X-XSS-Protection", dquote +:+ "1; mode=block" +:+ dquote) ].

(** [{'Strict-Transport-Security': ...}] updated with [_HTTP_HEADERS] *)
Definition _HTTPS_HEADERS : list (string * string) :=
  [ ("Strict-Transport-Security", "max-age=63072000") ] ++ _HTTP_HEADERS.

Definition _TLS_CIPHERS : list string :=
  [ "ECDHE-RSA-CHACHA20-POLY1305";
    "ECDHE-RSA-AES256-GCM-SHA512";
    "ECDHE-RSA-AES256-GCM-SHA384";
    "ECDHE-RSA-AES128-GCM-SHA256";
    "DHE-RSA-AES256-GCM-SHA512";
    "DHE-RSA-AES256-GCM-SHA384";
    "DHE-RSA-AES128-GCM-SHA256";
    "ECDHE-RSA-AES256-SHA384";
    "ECDHE-RSA-AES128-SHA256" ].

Definition _NGINX_GLOBALS : list pyval :=
  [ directive ["#"; "Auto-generated by Zombie Nginx configurator"];
    directive ["user"; "nginx"];
    directive ["worker_processes"; "auto"];
    directive ["worker_cpu_affinity"; "auto"];
    directive ["error_log"; "/var/log/nginx/error.log"; "warn"];
    directive ["pid"; "/var/run/nginx.pid"];
    block ["events"]
      [ directive ["worker_connections"; "2048"];
        directive ["multi_accept"; "on"] ] ].

Definition log_format_main : string :=
  "'$remote_addr - $remote_user [$time_local] " +:+
  dquote +:+ "$request" +:+ dquote +:+ " $status $body_bytes_sent " +:+
  dquote +:+ "$http_referer" +:+ dquote +:+ " " +:+
  dquote +:+ "$http_user_agent" +:+ dquote +:+ " " +:+
  dquote +:+ "$request_time $upstream_connect_time $upstream_header_time $upstream_response_time" +:+ dquote +:+ " " +:+
  "$upstream_addr $upstream_status$ssl_protocol/$ssl_session_reused/$ssl_cipher " +:+
  "$connection/$connection_requests $gzip_ratio $request_id'".

Definition _NGINX_HTTP : list pyval :=
  [ directive ["server_tokens"; "off"];

    directive ["include"; "/etc/nginx/mime.types"];
    directive ["default_type"; "application/octet-stream"];

    directive ["log_format"; "main"; log_format_main];
    directive ["access_log"; "/var/log/nginx/access.log"; "main"; "buffer=64k"; "flush=3s"];
    directive ["error_log"; "/var/log/nginx/error.log"; "warn"];

    directive ["gzip"; "on"];
    directive ["gzip_min_length"; "1000"];
    directive ["gzip_static"; "on"];
    directive ("gzip_types" :: _GZIP_TYPES);
    directive ["gzip_vary"; "on"];

    directive ["sendfile"; "on"];
    directive ["tcp_nopush"; "on"];
    directive ["tcp_nodelay"; "on"];
    directive ["keepalive_timeout"; "65"];
    directive ["keepalive_requests"; "1000"];
    directive ["postpone_output"; "1460"];
    directive ["reset_timedout_connection"; "on"];

    directive ["open_file_cache"; "max=10000"; "inactive=20s"];
    directive ["open_file_cache_valid"; "30s"];
    directive ["open_file_cache_min_uses"; "2"];
    directive ["open_file_cache_errors"; "on"] ].

(** ** The serializer *)

(** The [elif]/[else] branches of [emit_nginx_conf], for an item whose
    elements are [elems] and whose last element is not a list. *)
Definition emit_statement (white : string) (elems : list pyval) : M unit :=
  first ← lift (from_option Ok (Raise IndexError) (head elems));
  if py_eq_str first "#" then
    text ← lift (py_join " " elems); print (white +:+ text)
  else
    text ← lift (py_join " " elems); print (white +:+ text +:+ ";").

(** One round of the loop of [emit_nginx_conf]; the local [emit_nginx_conf]
    is the loop itself, over the children. *)
Fixpoint emit_item (indent : Z) (item : pyval) {struct item} : M unit :=
  let white := spaces indent in
  match item with
  | VList elems | VTuple elems =>
      with_last elems (λ last,
        match last with
        | VList children =>
            text ← lift (py_join " " (removelast elems));
            print (white +:+ text +:+ " {");;
            (fix emit_nginx_conf (config : list pyval) : M unit :=
               match config with
               | [] => mret ()
               | child :: config' =>
                   emit_item (indent + 2)%Z child;; emit_nginx_conf config'
               end) children;;
            print (white +:+ "}")
        | _ => emit_statement white elems
        end) (raise IndexError)
  | VStr s =>
      (* [item[-1]] of a string is a string, never a list *)
      emit_statement white (VStr <$> str_chars s)
  | VDict _ | VAnchored _ _ => raise (KeyError (VInt (-1)))
  | _ => raise TypeError
  end.

Fixpoint emit_nginx_conf (config : list pyval) (indent : Z) : M unit :=
  match config with
  | [] => mret ()
  | item :: config' => emit_item indent item;; emit_nginx_conf config' indent
  end.

(** ** Static file mounts *)

Definition generate_static_files_entry (description : pyval) : result pyval :=
  let description :=
    match description with
    | VStr path => VDict [("path", VStr path); ("location", VStr "/static")]
    | _ => description
    end in
  has_location ← py_contains "location" description;
  if negb has_location then Raise (Exception "location is required for static files") else
  has_path ← py_contains "path" description;
  if negb has_path then Raise (Exception "path is required for static files") else
  has_spa ← py_contains "spa" description;
  spa ← (if (has_spa : bool) then
           spa ← py_getitem description "spa";
           match spa with
           | VStr _ => Ok spa
           | _ => Raise (Exception "spa must be a string")
           end
         else Ok VNone);
  config ← (if py_truthy spa then
              path ← py_getitem description "path";
              Ok [VTuple [VStr "root"; path]; VTuple [VStr "try_files"; VStr "$uri"; spa]]
            else
              path ← py_getitem description "path";
              Ok [VTuple [VStr "alias"; path]]);
  has_index ← py_contains "index" description;
  config ← (if (has_index : bool) then
              if py_truthy spa then
                Raise (Exception "cannot use both spa and index options in static files")
              else
                index ← py_getitem description "index";
                Ok (config ++ [VTuple [VStr "index"; index]])
            else Ok config : result (list pyval));
  location ← py_getitem description "location";
  Ok (VTuple [VStr "location"; location; VList config]).

(** [[f(item) for item in items]] *)
Fixpoint list_comprehension {A B} (f : A → result B) (items : list A) : result (list B) :=
  match items with
  | [] => Ok []
  | item :: items' => y ← f item; ys ← list_comprehension f items'; Ok (y :: ys)
  end.

Definition generate_static_files (description : pyval) : result (list pyval) :=
  let description := wrap_single description in
  items ← py_iter description;
  list_comprehension generate_static_files_entry items.

(** ** Upstreams *)

(** The [dict] that [parse_single_upstream] returns. *)
Record upstream : Type := Upstream {
  u_name : pyval;
  u_location : pyval;
  u_url : string;
  u_type : string;
}.

(** The loop [for proto in ...] of [parse_single_upstream]; [None] when it
    ends without a [return]. *)
Fixpoint match_proto (protos : list string) (config : pyval) (name location : pyval)
    : result (option upstream) :=
  match protos with
  | [] => Ok None
  | proto :: protos' =>
      url ← py_getitem config "url";
      match url with
      | VStr url =>
          if String.prefix (proto +:+ "://") url then
            Ok (Some (Upstream name location (str_drop (String.length proto + 3) url) proto))
          else match_proto protos' config name location
      | _ => Raise AttributeError
      end
  end.

(** [config['name'] = ...] assigns to the entry of the document itself: an
    entry that an anchor shares is named at its first visit and has that name
    at every later one. *)
Definition parse_single_upstream (server_name : string) (config : pyval) : M upstream :=
  config ← match config with
           | VStr url =>
               mret (VDict [ ("url", VStr url);
                             ("name", VStr (server_name +:+ "-upstream"));
                             ("location", VStr "/") ])
           | _ =>
               config ← current config;
               has_name ← lift (py_contains "name" config);
               if negb has_name then
                 counter ← incr_upstream_counter;
                 py_setitem config "name" (VStr ("upstream-auto-" +:+ pretty counter))
               else mret config
           end;
  name ← lift (py_getitem config "name");
  location ← lift (py_getitem config "location");
  found ← lift (match_proto ["http"; "uwsgi"] config name location);
  match found with
  | Some upstream => mret upstream
  | None =>
      raise (Exception ("Please prefix " +:+ server_name +:+
                        ".upstream url with protocol name"))
  end.

(** The [defaultdict(list)] of [parse_upstreams]. *)
Definition configs_append (server_name : string) (u : upstream)
    (configs : gmap string (list upstream)) : gmap string (list upstream) :=
  <[server_name := default [] (configs !! server_name) ++ [u]]> configs.

Definition parse_upstreams_entry (server_name : string)
    (acc : list pyval * gmap string (list upstream)) (entry : pyval)
    : M (list pyval * gmap string (list upstream)) :=
  upstream ← parse_single_upstream server_name entry;
  mret (acc.1 ++ [VTuple [VStr "upstream"; u_name upstream;
                          VList [VTuple [VStr "server"; VStr (u_url upstream)]]]],
        configs_append server_name upstream acc.2).

Definition parse_upstreams_server
    (acc : list pyval * gmap string (list upstream)) (item : string * pyval)
    : M (list pyval * gmap string (list upstream)) :=
  let '(server_name, server_config) := item in
  has_upstream ← lift (py_contains "upstream" server_config);
  if negb has_upstream then mret acc else
  config ← lift (py_getitem server_config "upstream");
  let config := wrap_single config in
  entries ← lift (py_iter config);
  for_each_M (parse_upstreams_entry server_name) acc entries.

Definition parse_upstreams (input_config : pyval)
    : M (list pyval * gmap string (list upstream)) :=
  servers ← lift (py_get input_config "servers" (VDict []));
  items ← lift (py_items servers);
  for_each_M parse_upstreams_server ([], ∅) items.

(** ** Global HTTP settings *)

(** The [for idx, option in enumerate(http)] loop of [generate_http]: the
    index of the first option whose first element equals [key], [None] when
    the loop ends without a [break]. *)
Fixpoint find_option (key : string) (http : list pyval) (idx : nat) : result (option nat) :=
  match http with
  | [] => Ok None
  | option :: http' =>
      first ← py_getitem_0 option;
      if py_eq_str first key then Ok (Some idx)
      else find_option key http' (S idx)
  end.

Definition generate_http_entry (http : list pyval) (entry : pyval) : result (list pyval) :=
  parts ← py_split entry;
  let parts0 := default "" (head parts) in
  if String.eqb parts0 "include" then Ok (http ++ [VList (VStr <$> parts)])
  else
    found ← find_option parts0 http 0;
    match found with
    | Some idx => Ok (<[idx := VList (VStr <$> parts)]> http)
    | None => Ok (http ++ [VList (VStr <$> parts)])
    end.

Definition generate_http (app_conf : pyval) : result (list pyval) :=
  raw ← py_get app_conf "http_raw_options" (VList []);
  entries ← py_iter raw;
  for_each generate_http_entry _NGINX_HTTP entries.

(** ** Servers *)

(** The local variables of [generate_server] that its first loop assigns. *)
Record server_locals : Type := ServerLocals {
  server_name : pyval;
  tls : pyval;
  check_host_header : bool;
  extra_config : list pyval;
}.

Section Generator.

(** [str(v)] for a value that is not a string. *)
Variable py_str : pyval → string.

(** [f'{v}'] *)
Definition format (v : pyval) : string :=
  match v with
  | VStr s => s
  | _ => py_str v
  end.

Definition host_check (server_name : pyval) : pyval :=
  VTuple [ VStr "if"; VStr ("($http_host !~* ^" +:+ format server_name +:+ "$)");
           VList [directive ["return"; "444"]] ].

Definition _base_config_http_common (server_name : pyval) (strict_host : bool) : list pyval :=
  let config :=
    [ directive ["listen"; "80"; "deferred"; "reuseport"];
      directive ["listen"; "[::]:80"; "deferred"; "reuseport"];
      VTuple [VStr "server_name"; server_name] ] in
  if strict_host then config ++ [host_check server_name] else config.

Definition base_config_https_redirect (server_name : pyval) (strict_host : bool) : list pyval :=
  _base_config_http_common server_name strict_host ++
  [ directive ["return"; "301"; "https://" +:+ format server_name +:+ "$request_uri"] ].

Definition add_headers (headers : list (string * string)) : list pyval :=
  (λ '(name, value), directive ["add_header"; name; value; "always"]) <$> headers.

Definition base_config_http (server_name : pyval) (strict_host : bool) : list pyval :=
  _base_config_http_common server_name strict_host ++ add_headers _HTTP_HEADERS.

Definition base_config_https (server_name : pyval) (strict_host : bool) : list pyval :=
  [ directive ["listen"; "443"; "ssl"; "http2"; "deferred"; "reuseport"];
    directive ["listen"; "[::]:443"; "ssl"; "http2"; "deferred"; "reuseport"];
    VTuple [VStr "server_name"; server_name] ] ++
  (if strict_host then [host_check server_name] else []) ++
  add_headers _HTTPS_HEADERS ++
  [ directive ["ssl_protocols"; "TLSv1.2"];

    directive ["ssl_prefer_server_ciphers"; "on"];
    directive ["ssl_ciphers"; String.concat ":" _TLS_CIPHERS];
    directive ["ssl_dhparam"; "/etc/ssl/dhparam-2048.pem"];

    directive ["ssl_session_timeout"; "1d"];
    directive ["ssl_session_cache"; "shared:SSL:50m"];
    directive ["ssl_session_tickets"; "off"];

    directive ["ssl_stapling"; "on"];
    directive ["ssl_stapling_verify"; "on"];
    directive ["resolver"; "8.8.8.8 8.8.4.4"; "valid=300s"];
    directive ["resolver_timeout"; "5s"] ].

Definition generate_tls_config (cert : pyval) : result (list pyval) :=
  certificate ← py_getitem cert "certificate";
  key ← py_getitem cert "key";
  let config :=
    [ directive ["ssl_certificate"; "/etc/nginx/certs/" +:+ format certificate];
      directive ["ssl_certificate_key"; "/etc/nginx/certs/" +:+ format key] ] in
  has_root_chain ← py_contains "root_chain" cert;
  if (has_root_chain : bool) then
    root_chain ← py_getitem cert "root_chain";
    Ok (config ++ [directive ["ssl_trusted_certificate";
                              "/etc/nginx/certs/" +:+ format root_chain]])
  else Ok config.

(** [open(..., 'w')] empties the file before [f.write] checks its argument. *)
Definition activate_lets_encrypt (server_name : pyval) : M pyval :=
  set_le_domain_txt "";;
  match server_name with
  | VStr domain => set_le_domain_txt domain
  | _ => raise TypeError
  end;;
  mret (VDict [ ("certificate", VStr ("live/" +:+ format server_name +:+ "/fullchain.pem"));
                ("key", VStr ("live/" +:+ format server_name +:+ "/privkey.pem"));
                ("root_chain", VStr ("live/" +:+ format server_name +:+ "/chain.pem")) ]).

(** The body of the loop [for item, content in description.items()]. *)
Definition generate_server_item (name : string) (vars : server_locals)
    (entry : string * pyval) : result server_locals :=
  let '(item, content) := entry in
  if String.eqb item "server_raw_options" then
    match content with
    | VList options =>
        lines ← list_comprehension
                  (λ option, parts ← py_split option; Ok (VList (VStr <$> parts))) options;
        Ok (ServerLocals (server_name vars) (tls vars) (check_host_header vars)
                         (extra_config vars ++ lines))
    | _ => Raise (Exception (name +:+ ".server_raw_options must be an array"))
    end
  else if String.eqb item "server_name" then
    Ok (ServerLocals content (tls vars) (check_host_header vars) (extra_config vars))
  else if String.eqb item "static_files" then
    mounts ← generate_static_files content;
    Ok (ServerLocals (server_name vars) (tls vars) (check_host_header vars)
                     (extra_config vars ++ mounts))
  else if String.eqb item "tls" then
    Ok (ServerLocals (server_name vars) content (check_host_header vars) (extra_config vars))
  else if String.eqb item "check_host_header" then
    match content with
    | VBool b => Ok (ServerLocals (server_name vars) (tls vars) b (extra_config vars))
    | _ => Raise (Exception (name +:+ ".check_host_header must be a boolean value"))
    end
  else if String.eqb item "upstream" then
    Ok vars
  else Raise (Exception ("unknown option " +:+ name +:+ "." +:+ item)).

(** The [if tls is False: ... else: raise] chain: [use_tls] and the extended
    [extra_config]. *)
Definition resolve_tls (name : string) (vars : server_locals) : M (bool * list pyval) :=
  match tls vars with
  | VBool false => mret (false, extra_config vars)
  | VStr s =>
      if String.eqb s "auto" then
        cert ← activate_lets_encrypt (server_name vars);
        config ← lift (generate_tls_config cert);
        mret (true, extra_config vars ++ config ++
                    [VTuple [ VStr "location"; VStr "/.well-known/acme-challenge";
                              VList [directive ["root"; "/var/www/letsencrypt"]] ]])
      else raise (Exception (name +:+ ".tls value is invalid"))
  | VDict _ | VAnchored _ _ =>
      config ← lift (generate_tls_config (tls vars));
      mret (true, extra_config vars ++ config)
  | VList certs =>
      extra ← lift (for_each (λ extra cert, config ← generate_tls_config cert;
                                             Ok (extra ++ config))
                             (extra_config vars) certs);
      mret (true, extra)
  | _ => raise (Exception (name +:+ ".tls value is invalid"))
  end.

(** The body of the loop [for upstream in upstreams]. *)
Definition proxy_location (extra_config : list pyval) (upstream : upstream)
    : result (list pyval) :=
  let config :=
    [ directive ["proxy_set_header"; "X-Request-ID"; "$request_id"];
      directive ["proxy_set_header"; "X-Forwarded-For"; "$proxy_add_x_forwarded_for"];
      directive ["proxy_set_header"; "Host"; "$http_host"] ] in
  config ←
    (if String.eqb (u_type upstream) "uwsgi" then
       Ok (config ++ [directive ["include"; "uwsgi_params"];
                      VTuple [VStr "uwsgi_pass"; u_name upstream]])
     else if String.eqb (u_type upstream) "http" then
       Ok (config ++ [directive ["proxy_pass"; "http://" +:+ format (u_name upstream)]])
     else
       Raise (NotImplementedError
                ("Someone was naughty and did not implement the " +:+
                 u_type upstream +:+ " upstream type")) : result (list pyval));
  Ok (extra_config ++ [VTuple [VStr "location"; u_location upstream; VList config]]).

Definition generate_server (name : string) (description : pyval) (upstreams : list upstream)
    : M (list pyval) :=
  items ← lift (py_items description);
  vars ← lift (for_each (generate_server_item name) (ServerLocals VNone VNone true []) items);
  if negb (py_truthy (server_name vars)) then raise (Exception "server_name is required") else
  '(use_tls, extra_config) ← resolve_tls name vars;
  extra_config ← lift (for_each proxy_location extra_config upstreams);
  if (use_tls : bool) then
    mret [ VTuple [ VStr "server";
                    VList ([VTuple [VStr "#"; VStr name; VStr "- force HTTPS"]] ++
                           base_config_https_redirect (server_name vars)
                                                      (check_host_header vars)) ];
           VTuple [ VStr "server";
                    VList ([VTuple [VStr "#"; VStr name]] ++
                           base_config_https (server_name vars) (check_host_header vars) ++
                           extra_config) ] ]
  else
    mret [ VTuple [ VStr "server";
                    VList ([VTuple [VStr "#"; VStr name]] ++
                           base_config_http (server_name vars) (check_host_header vars) ++
                           extra_config) ] ].

Definition generate_servers (app_conf : pyval) (upstreams : gmap string (list upstream))
    : M (list pyval) :=
  input_servers ← lift (py_get app_conf "servers" (VDict []));
  items ← lift (py_items input_servers);
  for_each_M (λ servers '(name, description),
                blocks ← generate_server name description (default [] (upstreams !! name));
                mret (servers ++ blocks))
             [] items.

(** [main].  [sys_stderr] is [str(sys.stderr)], the text that [print] writes
    for the stream it is given as its first argument; [argv] is [sys.argv];
    [safe_load path] is what [open(path)] and [yaml.safe_load] make of the
    file: the document, or the exception that one of them raises. *)
Definition main (sys_stderr : string) (argv : list string)
    (safe_load : string → result pyval) : M unit :=
  app_conf ←
    (path ← lift (from_option Ok (Raise IndexError) (argv !! 1%nat));
     match safe_load path with
     | Ok app_conf => new_document;; mret app_conf
     | Raise FileNotFoundError =>
         print (sys_stderr +:+ " " +:+ "This image requires " +:+ path +:+
                " to be present. Did you forget to docker-mount it?");;
         raise (SystemExit 1)
     | Raise e => raise e
     end);
  '(upstreams_conf, upstreams_data) ← parse_upstreams app_conf;
  servers_conf ← generate_servers app_conf upstreams_data;
  http ← lift (generate_http app_conf);
  let http := http ++ upstreams_conf ++ servers_conf in
  let nginx_conf := _NGINX_GLOBALS ++ [VTuple [VStr "http"; VList http]] in
  emit_nginx_conf nginx_conf 0.

End Generator.

(** ** The directive tree of the specification *)

(** Whether a directive is written as a tuple (the generators) or as a list
    (a raw option line after [split]). *)
Inductive seq_kind : Type := AsTuple | AsList.

(** A directive as the specification describes it: a statement of string
    tokens, or tokens followed by a block of child directives. *)
Unset Elimination Schemes.
Inductive dtree : Type :=
  | Statement (kind : seq_kind) (tokens : list string)
  | Block (kind : seq_kind) (tokens : list string) (children : list dtree).
Set Elimination Schemes.

Definition py_seq (kind : seq_kind) (elems : list pyval) : pyval :=
  match kind with
  | AsTuple => VTuple elems
  | AsList => VList elems
  end.

(** The Python object of a directive. *)
Fixpoint to_py (d : dtree) : pyval :=
  match d with
  | Statement kind tokens => py_seq kind (VStr <$> tokens)
  | Block kind tokens children =>
      py_seq kind ((VStr <$> tokens) ++ [VList (to_py <$> children)])
  end.

(** A statement has at least one token (its name). *)
Fixpoint well_formed (d : dtree) : bool :=
  match d with
  | Statement _ tokens => bool_decide (tokens ≠ [])
  | Block _ _ children => forallb well_formed children
  end.

Definition is_comment (tokens : list string) : bool :=
  bool_decide (head tokens = Some "#").

(** The text of a directive as section 4.1 of the specification words it,
    one string per line. *)
Fixpoint spec_render (indent : Z) (d : dtree) : list string :=
  match d with
  | Statement _ tokens =>
      if is_comment tokens then [spaces indent +:+ String.concat " " tokens]
      else [spaces indent +:+ String.concat " " tokens +:+ ";"]
  | Block _ tokens children =>
      [spaces indent +:+ String.concat " " tokens +:+ " {"] ++
      mjoin (spec_render (indent + 2)%Z <$> children) ++
      [spaces indent +:+ "}"]
  end.

Definition spec_render_all (indent : Z) (tree : list dtree) : list string :=
  mjoin (spec_render indent <$> tree).

(** [p] after [lines] were printed. *)
Definition printed (lines : list string) (p : process) : process :=
  Process (_upstream_counter p) (le_domain_txt p) (stdout p ++ lines) (anchored p).

(** ** Anonymous upstream entries *)

(** A structured upstream entry without an explicit [name]. *)
Definition is_anonymous (entry : pyval) : bool :=
  match entry with
  | VDict d | VAnchored _ d => bool_decide (dict_lookup "name" d = None)
  | _ => false
  end.

(** The items of a mapping as they are in the state [p]. *)
Definition mapping_items (p : process) (v : pyval) : option (list (string * pyval)) :=
  match v with
  | VDict d => Some d
  | VAnchored a d => Some (default d (anchored p !! a))
  | _ => None
  end.

(** The record that [parse_single_upstream] returns for a mapping entry that
    has, by then, the items [d]. *)
Definition upstream_record (server_name : string) (d : list (string * pyval))
    : result upstream :=
  name ← py_getitem (VDict d) "name";
  location ← py_getitem (VDict d) "location";
  found ← match_proto ["http"; "uwsgi"] (VDict d) name location;
  match found with
  | Some upstream => Ok upstream
  | None => Raise (Exception ("Please prefix " +:+ server_name +:+
                              ".upstream url with protocol name"))
  end.

(** The state after an assignment that leaves the mapping [entry] with the
    items [d]: it is recorded for an anchored mapping. *)
Definition assigned (entry : pyval) (d : list (string * pyval)) (p : process) : process :=
  match entry with
  | VAnchored a _ =>
      Process (_upstream_counter p) (le_domain_txt p) (stdout p) (<[a := d]> (anchored p))
  | _ => p
  end.

(** The objects of the anchored mappings among upstream entries. *)
Definition entry_anchors (entries : list pyval) : list N :=
  omap (λ entry, match entry with VAnchored a _ => Some a | _ => None end) entries.

(** No anchored mapping comes twice among the entries, and none has been
    assigned to: every entry is an object of its own, as loaded. *)
Definition unshared (p : process) (entries : list pyval) : Prop :=
  NoDup (entry_anchors entries) ∧
  Forall (λ a, anchored p !! a = None) (entry_anchors entries).

(** The upstream entries of one server, in the order in which the inner loop
    of [parse_upstreams] meets them. *)
Definition server_upstream_entries (server_config : pyval) : list pyval :=
  match py_contains "upstream" server_config with
  | Ok true =>
      match py_getitem server_config "upstream" ≫= λ config, py_iter (wrap_single config) with
      | Ok entries => entries
      | Raise _ => []
      end
  | _ => []
  end.

(** The upstream entries of the whole document, in encounter order. *)
Definition upstream_entries (input_config : pyval) : list pyval :=
  match py_get input_config "servers" (VDict []) ≫= py_items with
  | Ok items => items ≫= λ item, server_upstream_entries item.2
  | Raise _ => []
  end.

(** The name in an [('upstream', name, [...])] block. *)
Definition upstream_block_name (b : pyval) : pyval :=
  match b with
  | VTuple (_ :: name :: _) => name
  | _ => VNone
  end.

(** The names that the upstream blocks give to the anonymous entries. *)
Definition anonymous_names (entries blocks : list pyval) : list pyval :=
  omap (λ eb, if is_anonymous eb.1 then Some (upstream_block_name eb.2) else None)
       (zip entries blocks).

Definition auto_name (n : Z) : pyval := VStr ("upstream-auto-" +:+ pretty n).

Definition anonymous_count (entries : list pyval) : Z :=
  Z.of_nat (length (filter (λ entry, is_anonymous entry) entries)).

(** ** The settings table of the specification *)

(** The first token of an entry of the HTTP settings table. *)
Definition first_token (setting : pyval) : option string :=
  match setting with
  | VList (VStr s :: _) | VTuple (VStr s :: _) => Some s
  | _ => None
  end.

(** Section 4.6 in the words of the specification: [after] is the table
    [before] merged with one override of tokens [parts].  An [include] is
    appended; another override replaces, in place, the first entry that has
    its first token, and is appended when there is none. *)
Definition merged (before : list pyval) (parts : list string) (after : list pyval) : Prop :=
  let key := default "" (head parts) in
  let entry := VList (VStr <$> parts) in
  (key = "include" → after = before ++ [entry]) ∧
  (key ≠ "include" →
   ∀ (idx : nat) (setting : pyval),
     before !! idx = Some setting → first_token setting = Some key →
     (∀ (j : nat) (setting' : pyval),
        (j < idx)%nat → before !! j = Some setting' → first_token setting' ≠ Some key) →
     after = <[idx := entry]> before) ∧
  (key ≠ "include" →
   (∀ setting : pyval, setting ∈ before → first_token setting ≠ Some key) →
   after = before ++ [entry]).

(** Splitting at runs of white space, as the specification words the split
    of a raw option line (Python's [str.split()] without a separator). *)
Definition whitespace_split (line : string) : list string := String.words line.

(** ** Invariants of the loops *)

(** What the two loops of [parse_upstreams] add to their accumulators. *)
Definition upstreams_step (entries : list pyval)
    (acc acc' : list pyval * gmap string (list upstream)) (p p' : process) : Prop :=
  ∃ blocks,
    acc'.1 = acc.1 ++ blocks ∧
    length entries = length blocks ∧
    anonymous_names entries blocks =
      auto_name <$> seqZ (_upstream_counter p + 1) (anonymous_count entries) ∧
    _upstream_counter p' = (_upstream_counter p + anonymous_count entries)%Z ∧
    ∀ a : N, a ∉ entry_anchors entries → anchored p' !! a = anchored p !! a.

(** The two protocols of [parse_single_upstream]. *)
Definition known_type (u : upstream) : Prop := u_type u = "http" ∨ u_type u = "uwsgi".

(** An entry of the settings table that starts with a string. *)
Definition has_first_token (setting : pyval) : Prop := is_Some (first_token setting).

(** ** The rendered output *)

(** The text on the standard output: every printed line and its newline. *)
Definition rendered_text (p : process) : string :=
  String.concat "" ((λ line, line +:+ String "010"%char "") <$> stdout p).

(** Two process states that agree on the counter, on the output so far and
    on the objects of the document; the hand-off file may differ. *)
Definition same_run (p1 p2 : process) : Prop :=
  _upstream_counter p1 = _upstream_counter p2 ∧ stdout p1 = stdout p2 ∧
  anchored p1 = anchored p2.

(** A computation whose result, counter and output do not depend on the
    hand-off file. *)
Definition file_independent {A} (m : M A) : Prop :=
  ∀ p1 p2 : process, same_run p1 p2 →
    same_run (m p1).1 (m p2).1 ∧ (m p1).2 = (m p2).2.

(** The six options of a server entry. *)
Definition server_options : list string :=
  ["server_raw_options"; "server_name"; "static_files"; "tls"; "check_host_header";
   "upstream"].

(** The blocks that [generate_server] returns at its end, from its locals. *)
Definition server_blocks (py_str : pyval → string) (name : string) (vars : server_locals)
    (use_tls : bool) (extra_config : list pyval) : list pyval :=
  if use_tls then
    [ VTuple [ VStr "server";
               VList ([VTuple [VStr "#"; VStr name; VStr "- force HTTPS"]] ++
                      base_config_https_redirect py_str (server_name vars)
                                                 (check_host_header vars)) ];
      VTuple [ VStr "server";
               VList ([VTuple [VStr "#"; VStr name]] ++
                      base_config_https py_str (server_name vars) (check_host_header vars) ++
                      extra_config) ] ]
  else
    [ VTuple [ VStr "server";
               VList ([VTuple [VStr "#"; VStr name]] ++
                      base_config_http py_str (server_name vars) (check_host_header vars) ++
                      extra_config) ] ].

(** The first tokens of a table in which no keyword but [include] comes
    twice. *)
Definition keywords_once (http : list pyval) : Prop :=
  NoDup (filter (λ token, token ≠ Some "include") (first_token <$> http)).

(** A computation that prints nothing. *)
Definition silent {A} (m : M A) : Prop :=
  ∀ p : process, stdout (m p).1 = stdout p.

(** A computation that only prints: the counter and the hand-off file stay
    as they are and the output grows at its end. *)
Definition only_prints {A} (m : M A) : Prop :=
  ∀ p : process, ∃ lines : list string, (m p).1 = printed lines p.

(** ** Conditional blocks *)

(** A directive that is an [if] block: its first element is [if] and its last
    element is a list of directives. *)
Definition is_if_block (c : pyval) : bool :=
  match c with
  | VList elems | VTuple elems =>
      match head elems with
      | Some first => py_eq_str first "if"
      | None => false
      end &&
      match last elems with
      | Some (VList _) => true
      | _ => false
      end
  | _ => false
  end.

Definition no_if_block (config : list pyval) : Prop :=
  Forall (λ c, is_if_block c = false) config.

(** ** The host check and the TLS modes of the specification *)

(** The configured domain as the generated text has it: the string itself,
    [str()] of a value that is not a string. *)
Definition domain_text (py_str : pyval → string) (server_name : pyval) : string :=
  match server_name with
  | VStr domain => domain
  | _ => py_str server_name
  end.

(** The conditional of the host check in the words of the specification: a
    request whose [Host] header does not match the domain, compared without
    regard to case ([!~*]), is answered with the status 444. *)
Definition host_conditional (domain : string) : dtree :=
  Block AsTuple ["if"; "($http_host !~* ^" +:+ domain +:+ "$)"]
    [Statement AsTuple ["return"; "444"]].

(** The values of [tls] that ask for TLS: [auto], a certificate record, a
    list of certificate records. *)
Definition tls_required_mode (tls : option pyval) : Prop :=
  tls = Some (VStr "auto") ∨ (∃ d, tls = Some (VDict d)) ∨
  (∃ a d, tls = Some (VAnchored a d)) ∨ ∃ certs, tls = Some (VList certs).

(** ** Example documents *)

(** An instance of [py_str] for the examples: [str()] of the scalars.  No
    example formats a list, a tuple or a dictionary. *)
Definition py_str_scalar (v : pyval) : string :=
  match v with
  | VNone => "None"
  | VBool true => "True"
  | VBool false => "False"
  | VInt z => pretty z
  | VStr s => s
  | _ => ""
  end.


(** Two servers, three structured upstream entries without a name and one
    bare URL. *)
Definition two_servers_document : pyval :=
  VDict [ ("servers", VDict
    [ ("api", VDict
        [ ("server_name", VStr "api.example.com");
          ("tls", VBool false);
          ("upstream", VList
             [ VDict [("url", VStr "http://10.0.0.1:8000"); ("location", VStr "/v1")];
               VDict [("url", VStr "uwsgi://10.0.0.2:3031"); ("location", VStr "/v2")] ]) ]);
      ("www", VDict
        [ ("server_name", VStr "www.example.com");
          ("tls", VStr "auto");
          ("upstream", VStr "http://10.0.0.3:8080") ]);
      ("admin", VDict
        [ ("server_name", VStr "admin.example.com");
          ("tls", VBool false);
          ("check_host_header", VBool false);
          ("upstream", VDict [("url", VStr "http://10.0.0.4:9000"); ("location", VStr "/")]) ]) ]) ].

(** One server whose two upstream entries are one mapping, written once with
    an anchor and aliased:
    [upstream: [&backend {url: http://10.0.0.1:8000, location: /}, *backend]]. *)
Definition aliased_document : pyval :=
  VDict [ ("servers", VDict
    [ ("api", VDict
        [ ("server_name", VStr "api.example.com");
          ("tls", VBool false);
          ("upstream", VList
             [ VAnchored 1 [("url", VStr "http://10.0.0.1:8000"); ("location", VStr "/")];
               VAnchored 1 [("url", VStr "http://10.0.0.1:8000"); ("location", VStr "/")] ]) ]) ]) ].

(** * Properties *)

(** ** Induction principles for the nested types *)

Lemma pyval_ind (P : pyval → Prop) :
  P VNone → (∀ b, P (VBool b)) → (∀ z, P (VInt z)) → (∀ s, P (VStr s)) →
  (∀ l, Forall P l → P (VList l)) →
  (∀ l, Forall P l → P (VTuple l)) →
  (∀ d, Forall (λ kv, P kv.2) d → P (VDict d)) →
  (∀ a d, Forall (λ kv, P kv.2) d → P (VAnchored a d)) →
  ∀ v, P v.
Proof.
  intros HN HB HI HS HL HT HD HA.
  fix IH 1. intros [ | b | z | s | l | l | d | a d ].
  - exact HN.
  - apply HB.
  - apply HI.
  - apply HS.
  - apply HL. induction l as [|x l IHl]; constructor; [apply IH | exact IHl].
  - apply HT. induction l as [|x l IHl]; constructor; [apply IH | exact IHl].
  - apply HD. induction d as [|[k x] d IHd]; constructor; [apply IH | exact IHd].
  - apply HA. induction d as [|[k x] d IHd]; constructor; [apply IH | exact IHd].
Qed.

Lemma dtree_ind (P : dtree → Prop) :
  (∀ kind tokens, P (Statement kind tokens)) →
  (∀ kind tokens children, Forall P children → P (Block kind tokens children)) →
  ∀ d, P d.
Proof.
  intros HS HB. fix IH 1. intros [kind tokens | kind tokens children].
  - apply HS.
  - apply HB. induction children as [|c cs IHcs]; constructor; [apply IH | exact IHcs].
Qed.

(** ** The monads *)

Lemma M_bind_eq {A B} (m : M A) (k : A → M B) (p : process) :
  (m ≫= k) p =
  match m p with
  | (p', Ok a) => k a p'
  | (p', Raise e) => (p', Raise e)
  end.
Proof. reflexivity. Qed.

Lemma printed_app (l1 l2 : list string) (p : process) :
  printed l2 (printed l1 p) = printed (l1 ++ l2) p.
Proof. unfold printed. simpl. by rewrite (assoc_L (++)). Qed.

Lemma printed_nil (p : process) : printed [] p = p.
Proof. destruct p. unfold printed. simpl. by rewrite (right_id_L [] (++)). Qed.

Lemma print_printed (line : string) (p : process) : print line p = (printed [line] p, Ok ()).
Proof. reflexivity. Qed.

(** ** The serializer *)

Lemma py_join_strings (sep : string) (tokens : list string) :
  py_join sep (VStr <$> tokens) = Ok (String.concat sep tokens).
Proof.
  induction tokens as [|t [|t' ts] IH]; [done..|].
  change (py_join sep (VStr <$> t :: t' :: ts))
    with (py_join sep (VStr <$> t' :: ts) ≫= λ rest, Ok (t +:+ sep +:+ rest)).
  by rewrite IH.
Qed.

Lemma with_last_eq {A} (elems : list pyval) (k : pyval → A) (empty : A) :
  with_last elems k empty = from_option k empty (last elems).
Proof.
  unfold with_last. induction elems as [|x [|y l] IH]; [done..|].
  rewrite IH. done.
Qed.

Lemma emit_item_block (kind : seq_kind) (front children : list pyval) (indent : Z) :
  emit_item indent (py_seq kind (front ++ [VList children])) =
  (text ← lift (py_join " " front);
   print (spaces indent +:+ text +:+ " {");;
   emit_nginx_conf children (indent + 2);;
   print (spaces indent +:+ "}")).
Proof.
  assert (Hloop : ∀ cs,
    (fix emit_nginx_conf (config : list pyval) : M unit :=
       match config with
       | [] => mret ()
       | child :: config' => emit_item (indent + 2) child;; emit_nginx_conf config'
       end) cs = emit_nginx_conf cs (indent + 2)%Z).
  { induction cs as [|c cs IH]; [done|]. simpl. by rewrite IH. }
  destruct kind; simpl; rewrite with_last_eq, last_snoc; simpl;
    by rewrite removelast_last, Hloop.
Qed.

Lemma emit_item_statement (kind : seq_kind) (tokens : list string) (indent : Z) :
  tokens ≠ [] →
  emit_item indent (py_seq kind (VStr <$> tokens)) =
  emit_statement (spaces indent) (VStr <$> tokens).
Proof.
  intros Hne. destruct tokens as [|t ts _] using rev_ind; [done|].
  destruct kind; simpl; rewrite with_last_eq, fmap_app; simpl;
    by rewrite last_snoc.
Qed.

Lemma emit_statement_strings (white : string) (tokens : list string) (p : process) :
  tokens ≠ [] →
  emit_statement white (VStr <$> tokens) p =
  (printed [if is_comment tokens then white +:+ String.concat " " tokens
            else white +:+ String.concat " " tokens +:+ ";"] p, Ok ()).
Proof.
  intros Hne. destruct tokens as [|t ts]; [done|].
  unfold emit_statement, is_comment.
  rewrite py_join_strings, M_bind_eq. simpl.
  destruct (String.eqb_spec t "#") as [->|Hne'].
  - by rewrite bool_decide_eq_true_2.
  - by rewrite bool_decide_eq_false_2 by congruence.
Qed.

Lemma emit_item_renders (d : dtree) :
  well_formed d = true → ∀ (indent : Z) (p : process),
  emit_item indent (to_py d) p = (printed (spec_render indent d) p, Ok ()).
Proof.
  induction d as [kind tokens | kind tokens children IH] using dtree_ind;
    intros Hwf indent p.
  - simpl in Hwf. apply bool_decide_eq_true_1 in Hwf.
    simpl to_py. rewrite emit_item_statement by done.
    rewrite emit_statement_strings by done. simpl spec_render.
    by destruct (is_comment tokens).
  - simpl to_py. rewrite emit_item_block.
    rewrite M_bind_eq. unfold lift at 1. rewrite py_join_strings.
    rewrite M_bind_eq, print_printed. rewrite M_bind_eq.
    assert (Hchildren : ∀ q,
      emit_nginx_conf (to_py <$> children) (indent + 2) q =
      (printed (mjoin (spec_render (indent + 2)%Z <$> children)) q, Ok ())).
    { simpl in Hwf. clear -IH Hwf.
      induction children as [|c cs IHcs]; intros q.
      - simpl. by rewrite printed_nil.
      - simpl in Hwf. apply andb_true_iff in Hwf as [Hc Hcs].
        apply Forall_cons in IH as [IHc IH].
        rewrite fmap_cons. simpl emit_nginx_conf.
        rewrite M_bind_eq, IHc by done. rewrite IHcs by done.
        rewrite printed_app. done. }
    rewrite Hchildren, print_printed, !printed_app. done.
Qed.

Lemma str_app_assoc (s1 s2 s3 : string) : (s1 +:+ s2) +:+ s3 = s1 +:+ s2 +:+ s3.
Proof.
  induction s1 as [|c s1 IH]; [done|].
  change (String c ((s1 +:+ s2) +:+ s3) = String c (s1 +:+ s2 +:+ s3)).
  by rewrite IH.
Qed.

Lemma spaces_le (a b : Z) : (a ≤ b)%Z → ∃ rest, spaces b = spaces a +:+ rest.
Proof.
  intros Hle. unfold spaces.
  assert (Hnat : (Z.to_nat a ≤ Z.to_nat b)%nat) by lia.
  revert Hnat. generalize (Z.to_nat a) (Z.to_nat b). clear.
  induction n as [|n IH]; intros m Hle.
  - by eexists.
  - destruct m as [|m]; [lia|]. destruct (IH m) as [rest Hrest]; [lia|].
    exists rest. simpl. by rewrite Hrest, str_app_assoc.
Qed.

Lemma spec_render_indented (d : dtree) (indent : Z) (line : string) :
  line ∈ spec_render indent d → ∃ rest, line = spaces indent +:+ rest.
Proof.
  revert indent.
  induction d as [kind tokens | kind tokens children IH] using dtree_ind;
    intros indent; simpl.
  - destruct (is_comment tokens); intros ->%list_elem_of_singleton; by eexists.
  - rewrite elem_of_cons, elem_of_app, list_elem_of_singleton.
    intros [-> | [Hin | ->]]; [by eexists | | by eexists].
    apply list_elem_of_join in Hin as (lines & Hline & Hlines).
    apply list_elem_of_fmap in Hlines as (c & -> & Hc).
    rewrite Forall_forall in IH. destruct (IH c Hc _ Hline) as [rest ->].
    destruct (spaces_le indent (indent + 2)) as [pad ->]; [lia|].
    rewrite str_app_assoc. by eexists.
Qed.

(** C2. For every directive tree (each statement carrying at least a name) and
    every indent, [emit_nginx_conf] raises nothing and prints, directive after
    directive, the text of section 4.1: a comment (a statement whose first
    token is [#]) as its tokens joined by spaces with no terminator, a
    directive ending in a block as its other tokens joined by spaces and
    [ {], its children at [indent + 2] and a closing [}] at the current
    indent, any other directive as its tokens joined by spaces and one [;],
    and every printed line starts with the [indent] spaces of its level. *)
Theorem emit_nginx_conf_renders (tree : list dtree) (indent : Z) (p : process) :
  forallb well_formed tree = true →
  emit_nginx_conf (to_py <$> tree) indent p =
    (printed (spec_render_all indent tree) p, Ok ()) ∧
  ∀ line, line ∈ spec_render_all indent tree → ∃ rest, line = spaces indent +:+ rest.
Proof.
  intros Hwf. split.
  - revert p. induction tree as [|d tree IH]; intros p.
    + simpl. by rewrite printed_nil.
    + simpl in Hwf. apply andb_true_iff in Hwf as [Hd Htree].
      rewrite fmap_cons. simpl emit_nginx_conf.
      rewrite M_bind_eq, emit_item_renders by done.
      rewrite IH by done. rewrite printed_app. done.
  - intros line Hin. unfold spec_render_all in Hin.
    apply list_elem_of_join in Hin as (lines & Hline & Hlines).
    apply list_elem_of_fmap in Hlines as (d & -> & _).
    by eapply spec_render_indented.
Qed.

Lemma emit_nginx_conf_renders_witness :
  emit_nginx_conf
    (to_py <$> [ Statement AsTuple ["#"; "web"];
                 Block AsTuple ["server"]
                   [ Statement AsList ["listen"; "80"];
                     Block AsTuple ["location"; "/"] [Statement AsTuple ["root"; "/srv"]] ] ])
    0 (Process 0 None [] ∅) =
  (Process 0 None
     [ "# web"; "server {"; "  listen 80;"; "  location / {"; "    root /srv;";
       "  }"; "}" ] ∅, Ok ()).
Proof.
  apply (emit_nginx_conf_renders
           [ Statement AsTuple ["#"; "web"];
             Block AsTuple ["server"]
               [ Statement AsList ["listen"; "80"];
                 Block AsTuple ["location"; "/"] [Statement AsTuple ["root"; "/srv"]] ] ]
           0 (Process 0 None [] ∅)).
  reflexivity.
Defined.

(** ** Dictionaries *)

Lemma dict_lookup_insert_ne (key key' : string) (x : pyval) (d : list (string * pyval)) :
  key ≠ key' → dict_lookup key' (dict_insert key x d) = dict_lookup key' d.
Proof.
  intros Hne. induction d as [|[k y] d IH]; simpl.
  - by rewrite decide_False.
  - destruct (decide (k = key)) as [->|]; simpl.
    + by rewrite !decide_False.
    + by rewrite IH.
Qed.

Lemma dict_lookup_insert (key : string) (x : pyval) (d : list (string * pyval)) :
  dict_lookup key (dict_insert key x d) = Some x.
Proof.
  induction d as [|[k y] d IH]; simpl.
  - by rewrite decide_True.
  - destruct (decide (k = key)) as [->|]; simpl.
    + by rewrite decide_True.
    + by rewrite decide_False.
Qed.

Lemma dict_lookup_None (key : string) (d : list (string * pyval)) :
  dict_lookup key d = None ↔ key ∉ d.*1.
Proof.
  induction d as [|[k y] d IH]; simpl.
  - split; [intros _; apply not_elem_of_nil | done].
  - rewrite not_elem_of_cons. destruct (decide (k = key)) as [->|Hne].
    + split; [done | by intros [? _]].
    + rewrite IH. split; [by split | by intros [_ ?]].
Qed.

(** ** Static file mounts *)

(** C3, as the code has it.  A mount given as a bare path string gets the
    location [/static] and becomes a location block at [/static] that
    aliases the path, with no [try_files] and no [index] entry.  A mount given
    as a mapping has no default: without a [location] key it is refused with
    the error [location is required for static files]. *)
Theorem generate_static_files_entry_location :
  (∀ path : string,
     generate_static_files_entry (VStr path) =
     Ok (VTuple [VStr "location"; VStr "/static"; VList [VTuple [VStr "alias"; VStr path]]])) ∧
  (∀ d : list (string * pyval),
     dict_lookup "location" d = None →
     generate_static_files_entry (VDict d) =
     Raise (Exception "location is required for static files")).
Proof.
  split.
  - intros path. reflexivity.
  - intros d Hloc. unfold generate_static_files_entry. simpl. by rewrite Hloc.
Qed.

Lemma generate_static_files_entry_location_witness :
  generate_static_files_entry (VDict [("path", VStr "/srv/www"); ("index", VStr "index.html")]) =
  Raise (Exception "location is required for static files").
Proof.
  apply (proj2 generate_static_files_entry_location
           [("path", VStr "/srv/www"); ("index", VStr "index.html")]).
  reflexivity.
Defined.

(** C3 as stated fails for a mapping that supplies only [path]. *)
Lemma generate_static_files_entry_path_only :
  generate_static_files_entry (VDict [("path", VStr "/srv/www")]) =
    Raise (Exception "location is required for static files") ∧
  generate_static_files_entry (VDict [("path", VStr "/srv/www")]) ≠
    Ok (VTuple [VStr "location"; VStr "/static";
                VList [VTuple [VStr "alias"; VStr "/srv/www"]]]).
Proof. split; [reflexivity | discriminate]. Qed.

(** C5, as the code has it.  A mapping whose [spa] is a non-empty string and
    which has an [index] key yields no fragment: generation raises, and once
    [location] and [path] are there the error is the mutual-exclusion one. *)
Theorem generate_static_files_entry_spa_index
    (d : list (string * pyval)) (spa : string) (index : pyval) :
  dict_lookup "spa" d = Some (VStr spa) →
  spa ≠ "" →
  dict_lookup "index" d = Some index →
  generate_static_files_entry (VDict d) =
  Raise (Exception
    (if dict_lookup "location" d is None then "location is required for static files"
     else if dict_lookup "path" d is None then "path is required for static files"
     else "cannot use both spa and index options in static files")).
Proof.
  intros Hspa Hne Hindex. unfold generate_static_files_entry. simpl.
  destruct (dict_lookup "location" d) as [loc|]; simpl; [|done].
  destruct (dict_lookup "path" d) as [path|]; simpl; [|done].
  rewrite Hspa, Hindex. simpl.
  destruct (String.eqb_spec spa "") as [->|_]; [done|]. done.
Qed.

Lemma generate_static_files_entry_spa_index_witness :
  generate_static_files_entry
    (VDict [ ("path", VStr "/srv/app"); ("location", VStr "/");
             ("spa", VStr "/index.html"); ("index", VStr "index.html") ]) =
  Raise (Exception "cannot use both spa and index options in static files").
Proof.
  apply (generate_static_files_entry_spa_index
           [ ("path", VStr "/srv/app"); ("location", VStr "/");
             ("spa", VStr "/index.html"); ("index", VStr "index.html") ]
           "/index.html" (VStr "index.html")).
  - reflexivity.
  - discriminate.
  - reflexivity.
Defined.

(** C5 as stated fails when [spa] is the empty string: the mount is served
    as an alias with the index. *)
Lemma generate_static_files_entry_empty_spa :
  generate_static_files_entry
    (VDict [ ("path", VStr "/srv/app"); ("location", VStr "/");
             ("spa", VStr ""); ("index", VStr "index.html") ]) =
  Ok (VTuple [ VStr "location"; VStr "/";
               VList [ VTuple [VStr "alias"; VStr "/srv/app"];
                       VTuple [VStr "index"; VStr "index.html"] ] ]).
Proof. reflexivity. Qed.

(** ** Upstreams *)

Lemma M_bind_ok_inv {A B} (m : M A) (k : A → M B) (p p' : process) (b : B) :
  (m ≫= k) p = (p', Ok b) → ∃ a q, m p = (q, Ok a) ∧ k a q = (p', Ok b).
Proof.
  rewrite M_bind_eq. destruct (m p) as [q [a|e]]; [|done]. by exists a, q.
Qed.

Lemma lift_ok_inv {A} (r : result A) (p p' : process) (a : A) :
  lift r p = (p', Ok a) → r = Ok a ∧ p' = p.
Proof. unfold lift. by intros [= -> ->]. Qed.

Lemma match_proto_ok (protos : list string) (config name location : pyval) (u : upstream) :
  match_proto protos config name location = Ok (Some u) →
  u_name u = name ∧ u_location u = location ∧ u_type u ∈ protos.
Proof.
  induction protos as [|proto protos IH]; simpl; [done|].
  destruct (py_getitem config "url") as [[| | |url| | | |]|]; simpl; try done.
  destruct (String.prefix _ url).
  - intros [= <-]. simpl. split_and!; [done..|]. apply elem_of_cons. by left.
  - intros (? & ? & ?)%IH. split_and!; [done..|]. apply elem_of_cons. by right.
Qed.

Lemma parse_single_upstream_str (server_name url : string) (p : process) :
  parse_single_upstream server_name (VStr url) p =
  (p, if String.prefix "http://" url then
        Ok (Upstream (VStr (server_name +:+ "-upstream")) (VStr "/") (str_drop 7 url) "http")
      else if String.prefix "uwsgi://" url then
        Ok (Upstream (VStr (server_name +:+ "-upstream")) (VStr "/") (str_drop 8 url) "uwsgi")
      else Raise (Exception ("Please prefix " +:+ server_name +:+
                             ".upstream url with protocol name"))).
Proof.
  unfold parse_single_upstream. rewrite M_bind_eq. simpl.
  change ("http" +:+ "://") with "http://". change ("uwsgi" +:+ "://") with "uwsgi://".
  destruct (String.prefix "http://" url); [done|].
  destruct (String.prefix "uwsgi://" url); done.
Qed.

(** The steps of [parse_single_upstream] after the name is there, for a
    mapping. *)
Lemma parse_single_upstream_record (server_name : string) (config : pyval)
    (d : list (string * pyval)) (q : process) :
  config = VDict d ∨ (∃ a, config = VAnchored a d) →
  (name ← lift (py_getitem config "name");
   location ← lift (py_getitem config "location");
   found ← lift (match_proto ["http"; "uwsgi"] config name location);
   match found with
   | Some upstream => mret upstream
   | None =>
       raise (Exception ("Please prefix " +:+ server_name +:+
                         ".upstream url with protocol name"))
   end) q = (q, upstream_record server_name d).
Proof.
  intros Hconfig.
  assert (Hget : ∀ key, py_getitem config key = py_getitem (VDict d) key).
  { by destruct Hconfig as [-> | [a ->]]. }
  assert (Hproto : ∀ name location,
    match_proto ["http"; "uwsgi"] config name location =
    match_proto ["http"; "uwsgi"] (VDict d) name location).
  { intros name location. unfold match_proto. by rewrite !Hget. }
  unfold upstream_record. rewrite M_bind_eq. unfold lift at 1. rewrite Hget.
  destruct (py_getitem (VDict d) "name") as [name|e]; [|done].
  rewrite M_bind_eq. unfold lift at 1. rewrite Hget.
  destruct (py_getitem (VDict d) "location") as [location|e]; [|done].
  rewrite M_bind_eq. unfold lift at 1. rewrite Hproto. cbn [mbind result_bind].
  destruct (match_proto _ (VDict d) name location) as [[u|]|e]; done.
Qed.

(** [parse_single_upstream] on a mapping whose items are, at the call, [d]. *)
Lemma parse_single_upstream_mapping (server_name : string) (entry : pyval)
    (d : list (string * pyval)) (p : process) :
  mapping_items p entry = Some d →
  parse_single_upstream server_name entry p =
  match dict_lookup "name" d with
  | Some _ => (p, upstream_record server_name d)
  | None =>
      let d' := dict_insert "name" (auto_name (_upstream_counter p + 1)) d in
      (assigned entry d'
         (Process (_upstream_counter p + 1) (le_domain_txt p) (stdout p) (anchored p)),
       upstream_record server_name d')
  end.
Proof.
  intros Hitems. unfold parse_single_upstream. rewrite M_bind_eq.
  destruct entry as [ | | | | | |d0|a d0]; simpl in Hitems; try done;
    injection Hitems as <-.
  - rewrite !M_bind_eq. simpl.
    destruct (dict_lookup "name" d0) as [name|] eqn:Hname.
    + rewrite bool_decide_eq_true_2 by done. simpl.
      apply (parse_single_upstream_record server_name (VDict d0) d0 p). by left.
    + rewrite bool_decide_eq_false_2 by (by intros [? ?]). simpl.
      apply (parse_single_upstream_record server_name (VDict _) _ _). by left.
  - rewrite !M_bind_eq. simpl.
    destruct (dict_lookup "name" (default d0 (anchored p !! a))) as [name|] eqn:Hname.
    + rewrite bool_decide_eq_true_2 by done. simpl.
      apply (parse_single_upstream_record server_name (VAnchored a _) _ p).
      right. by exists a.
    + rewrite bool_decide_eq_false_2 by (by intros [? ?]). simpl.
      assert (Hnow : default (default d0 (anchored p !! a)) (anchored p !! a) =
                     default d0 (anchored p !! a)) by by destruct (anchored p !! a).
      rewrite Hnow.
      apply (parse_single_upstream_record server_name (VAnchored a _) _ _).
      right. by exists a.
Qed.

Lemma upstream_record_ok (server_name : string) (d : list (string * pyval)) (u : upstream) :
  upstream_record server_name d = Ok u →
  known_type u ∧
  dict_lookup "name" d = Some (u_name u) ∧
  dict_lookup "location" d = Some (u_location u).
Proof.
  unfold upstream_record. simpl py_getitem.
  destruct (dict_lookup "name" d) as [name|]; [|done].
  destruct (dict_lookup "location" d) as [location|]; [|done].
  cbn [mbind result_bind].
  destruct (match_proto _ _ name location) as [[u'|]|e] eqn:Hfound; [|done..].
  intros [= ->]. apply match_proto_ok in Hfound as (-> & -> & Ht).
  split_and!; [|done..].
  apply elem_of_cons in Ht as [?|Ht]; [by left|].
  apply list_elem_of_singleton in Ht. by right.
Qed.

(** A value that is neither a string nor a mapping is no upstream entry. *)
Lemma parse_single_upstream_ok_inv (server_name : string) (entry : pyval)
    (p p' : process) (u : upstream) :
  parse_single_upstream server_name entry p = (p', Ok u) →
  (∃ url, entry = VStr url) ∨ ∃ d, mapping_items p entry = Some d.
Proof.
  destruct entry as [ | b | z | url | l | l | d | a d ];
    try (intros _; by eauto); unfold parse_single_upstream;
    rewrite !M_bind_eq; simpl; try done.
  - destruct (existsb _ l); simpl; [by rewrite M_bind_eq|done].
  - destruct (existsb _ l); simpl; [by rewrite M_bind_eq|done].
Qed.

Lemma parse_single_upstream_known (server_name : string) (entry : pyval)
    (p p' : process) (u : upstream) :
  parse_single_upstream server_name entry p = (p', Ok u) → known_type u.
Proof.
  intros Hrun.
  destruct (parse_single_upstream_ok_inv _ _ _ _ _ Hrun) as [[url ->] | [d Hd]].
  - rewrite parse_single_upstream_str in Hrun. injection Hrun as _ Hu.
    destruct (String.prefix "http://" url); [injection Hu as <-; by left|].
    destruct (String.prefix "uwsgi://" url); [injection Hu as <-; by right|done].
  - rewrite (parse_single_upstream_mapping _ _ _ _ Hd) in Hrun.
    destruct (dict_lookup "name" d); injection Hrun as _ Hu;
      by apply upstream_record_ok in Hu as [? _].
Qed.

(** An upstream given as a bare URL string resolves, when its protocol is
    recognised, to a record whose location is [/].  A mapping entry gets no
    such default: without a [location] key [parse_single_upstream] stops on
    the [KeyError] of [config['location']]. *)
Lemma parse_single_upstream_location (server_name : string) (p : process) :
  (∀ url : string,
     parse_single_upstream server_name (VStr url) p =
     (p, if String.prefix "http://" url then
           Ok (Upstream (VStr (server_name +:+ "-upstream")) (VStr "/") (str_drop 7 url) "http")
         else if String.prefix "uwsgi://" url then
           Ok (Upstream (VStr (server_name +:+ "-upstream")) (VStr "/") (str_drop 8 url) "uwsgi")
         else Raise (Exception ("Please prefix " +:+ server_name +:+
                                ".upstream url with protocol name")))) ∧
  (∀ d : list (string * pyval),
     dict_lookup "location" d = None →
     (parse_single_upstream server_name (VDict d) p).2 = Raise (KeyError (VStr "location"))).
Proof.
  split; [intros url; apply parse_single_upstream_str|].
  intros d Hloc. rewrite (parse_single_upstream_mapping _ _ d) by done.
  unfold upstream_record. simpl py_getitem.
  destruct (dict_lookup "name" d) as [name|] eqn:Hname; simpl.
  - by rewrite Hloc.
  - by rewrite dict_lookup_insert, (dict_lookup_insert_ne "name" "location"), Hloc.
Qed.

(** C4 fails on the code.  A mapping entry without [location] does not
    resolve to a record with the location [/], as the bare URL string does:
    the entry is given its name, the counter has moved, and
    [config['location']] raises [KeyError]. *)
Theorem parse_single_upstream_mapping_without_location :
  parse_single_upstream "web" (VDict [("url", VStr "http://app:8000")]) (Process 0 None [] ∅) =
  (Process 1 None [] ∅, Raise (KeyError (VStr "location"))).
Proof. reflexivity. Qed.

Lemma anonymous_names_app (entries1 entries2 blocks1 blocks2 : list pyval) :
  length entries1 = length blocks1 →
  anonymous_names (entries1 ++ entries2) (blocks1 ++ blocks2) =
  anonymous_names entries1 blocks1 ++ anonymous_names entries2 blocks2.
Proof.
  intros Hlen. unfold anonymous_names.
  rewrite zip_with_app by done. apply omap_app.
Qed.

Lemma anonymous_count_app (entries1 entries2 : list pyval) :
  anonymous_count (entries1 ++ entries2) =
  (anonymous_count entries1 + anonymous_count entries2)%Z.
Proof. unfold anonymous_count. rewrite filter_app, length_app. lia. Qed.

Lemma anonymous_count_nonneg (entries : list pyval) : (0 ≤ anonymous_count entries)%Z.
Proof. unfold anonymous_count. lia. Qed.

Lemma entry_anchors_app (entries1 entries2 : list pyval) :
  entry_anchors (entries1 ++ entries2) = entry_anchors entries1 ++ entry_anchors entries2.
Proof. apply omap_app. Qed.

(** The entries after a first group are still objects of their own when the
    first group was. *)
Lemma unshared_app (p p1 : process) (entries1 entries2 : list pyval) :
  unshared p (entries1 ++ entries2) →
  unshared p entries1 ∧
  ((∀ a : N, a ∉ entry_anchors entries1 → anchored p1 !! a = anchored p !! a) →
   unshared p1 entries2).
Proof.
  unfold unshared. rewrite entry_anchors_app.
  intros [(Hdup1 & Hdisjoint & Hdup2)%NoDup_app [Hnew1 Hnew2]%Forall_app].
  split; [done|]. intros Hframe. split; [done|].
  rewrite Forall_forall in Hnew2 |- *. intros a Ha.
  rewrite Hframe; [by apply Hnew2|]. intros Hin. by apply (Hdisjoint a).
Qed.

Lemma upstreams_step_nil acc p : upstreams_step [] acc acc p p.
Proof.
  exists []. rewrite (right_id_L [] (++)). split_and!; [done..| |done].
  unfold anonymous_count. simpl. lia.
Qed.

Lemma upstreams_step_app entries1 entries2 acc acc1 acc2 p p1 p2 :
  upstreams_step entries1 acc acc1 p p1 →
  upstreams_step entries2 acc1 acc2 p1 p2 →
  upstreams_step (entries1 ++ entries2) acc acc2 p p2.
Proof.
  intros (blocks1 & Hacc1 & Hlen1 & Hnames1 & Hc1 & Hframe1)
         (blocks2 & Hacc2 & Hlen2 & Hnames2 & Hc2 & Hframe2).
  exists (blocks1 ++ blocks2). split_and!.
  - by rewrite Hacc2, Hacc1, (assoc_L (++)).
  - rewrite !length_app. lia.
  - rewrite anonymous_names_app, Hnames1, Hnames2, anonymous_count_app by done.
    rewrite seqZ_app by apply anonymous_count_nonneg.
    rewrite fmap_app, Hc1. do 3 f_equal. lia.
  - rewrite Hc2, Hc1, anonymous_count_app. lia.
  - intros a. rewrite entry_anchors_app, not_elem_of_app. intros [Ha1 Ha2].
    by rewrite Hframe2, Hframe1.
Qed.

(** One call on an entry that is an object of its own: the counter moves for
    an entry without a name, which gets the next name, and no other object is
    assigned to. *)
Lemma parse_single_upstream_unshared (server_name : string) (entry : pyval)
    (p p' : process) (u : upstream) :
  parse_single_upstream server_name entry p = (p', Ok u) →
  unshared p [entry] →
  (if is_anonymous entry then
     _upstream_counter p' = (_upstream_counter p + 1)%Z ∧
     u_name u = auto_name (_upstream_counter p + 1)
   else _upstream_counter p' = _upstream_counter p) ∧
  ∀ a : N, a ∉ entry_anchors [entry] → anchored p' !! a = anchored p !! a.
Proof.
  intros Hu [_ Hnew].
  destruct (parse_single_upstream_ok_inv _ _ _ _ _ Hu) as [[url ->] | [d Hd]].
  { rewrite parse_single_upstream_str in Hu. by injection Hu as <- _. }
  assert (Hanon : is_anonymous entry = bool_decide (dict_lookup "name" d = None)).
  { destruct entry as [ | | | | | |d0|a d0]; try done; simpl in Hd.
    - by injection Hd as <-.
    - unfold entry_anchors in Hnew. simpl in Hnew.
      apply Forall_inv in Hnew. simpl in Hnew. rewrite Hnew in Hd.
      by injection Hd as <-. }
  rewrite (parse_single_upstream_mapping _ _ _ _ Hd) in Hu. rewrite Hanon.
  destruct (dict_lookup "name" d) as [name|] eqn:Hname.
  - injection Hu as <- _. by rewrite bool_decide_eq_false_2.
  - injection Hu as <- Hrecord. rewrite bool_decide_eq_true_2 by done.
    apply upstream_record_ok in Hrecord as (_ & Hrecord & _).
    rewrite dict_lookup_insert in Hrecord. injection Hrecord as <-.
    split; [split; [by destruct entry|done]|].
    intros a Ha. destruct entry as [ | | | | | | |b d0]; try done. simpl.
    apply lookup_insert_ne. intros ->. apply Ha, list_elem_of_here.
Qed.

Lemma parse_upstreams_entry_step server_name acc entry p p' acc' :
  parse_upstreams_entry server_name acc entry p = (p', Ok acc') →
  unshared p [entry] →
  upstreams_step [entry] acc acc' p p'.
Proof.
  intros (u & q & Hu & H)%M_bind_ok_inv Hunshared. injection H as <- <-.
  apply parse_single_upstream_unshared in Hu as [Hu Hframe]; [|done].
  eexists [_]. split_and!; [done..| | |done].
  - unfold anonymous_names, anonymous_count. simpl.
    destruct (is_anonymous entry) eqn:Hanon.
    + rewrite filter_cons_True by by rewrite Hanon. simpl.
      destruct Hu as [_ ->]. done.
    + rewrite filter_cons_False by (rewrite Hanon; intros []). done.
  - unfold anonymous_count. destruct (is_anonymous entry) eqn:Hanon.
    + rewrite filter_cons_True by by rewrite Hanon. simpl. destruct Hu as [-> _]. lia.
    + rewrite filter_cons_False by (rewrite Hanon; intros []). simpl. lia.
Qed.

Lemma parse_upstreams_entries_step server_name entries : ∀ acc p p' acc',
  for_each_M (parse_upstreams_entry server_name) acc entries p = (p', Ok acc') →
  unshared p entries →
  upstreams_step entries acc acc' p p'.
Proof.
  induction entries as [|entry entries IH]; intros acc p p' acc'.
  - intros [= <- <-] _. apply upstreams_step_nil.
  - intros (acc1 & p1 & H1 & H2)%M_bind_ok_inv Hunshared.
    apply (unshared_app p p1 [entry] entries) in Hunshared as [Hentry Hentries].
    apply parse_upstreams_entry_step in H1; [|done].
    apply (upstreams_step_app [entry] entries acc acc1 acc' p p1 p'); [done|].
    apply IH; [done|]. apply Hentries. by destruct H1 as (? & _ & _ & _ & _ & ?).
Qed.

Lemma parse_upstreams_server_step acc item p p' acc' :
  parse_upstreams_server acc item p = (p', Ok acc') →
  unshared p (server_upstream_entries item.2) →
  upstreams_step (server_upstream_entries item.2) acc acc' p p'.
Proof.
  destruct item as [server_name server_config]. unfold parse_upstreams_server.
  intros (has & q & [Hhas ->]%lift_ok_inv & H)%M_bind_ok_inv.
  unfold server_upstream_entries. simpl. rewrite Hhas.
  destruct has; simpl in H.
  - apply M_bind_ok_inv in H as (config & q & [Hconfig ->]%lift_ok_inv & H).
    apply M_bind_ok_inv in H as (entries & q & [Hentries ->]%lift_ok_inv & H).
    rewrite Hconfig. simpl. rewrite Hentries.
    by apply (parse_upstreams_entries_step server_name).
  - injection H as <- <-. intros _. apply upstreams_step_nil.
Qed.

Lemma parse_upstreams_servers_step items : ∀ acc p p' acc',
  for_each_M parse_upstreams_server acc items p = (p', Ok acc') →
  unshared p (items ≫= λ item, server_upstream_entries item.2) →
  upstreams_step (items ≫= λ item, server_upstream_entries item.2) acc acc' p p'.
Proof.
  induction items as [|item items IH]; intros acc p p' acc'.
  - intros [= <- <-] _. apply upstreams_step_nil.
  - intros (acc1 & p1 & H1 & H2)%M_bind_ok_inv. rewrite bind_cons. intros Hunshared.
    apply (unshared_app p p1) in Hunshared as [Hserver Hservers].
    apply parse_upstreams_server_step in H1; [|done].
    eapply upstreams_step_app; [done|].
    apply IH; [done|]. apply Hservers. by destruct H1 as (? & _ & _ & _ & _ & ?).
Qed.

Global Instance auto_name_inj : Inj (=) (=) auto_name.
Proof.
  intros m n [= H]. change (pretty m = pretty n) in H. by apply (inj pretty) in H.
Qed.

(** C7 fails on the code.  The two upstream entries of [aliased_document] are
    structured entries without a [name], and one mapping: the first visit
    writes [upstream-auto-1] into it, the second finds that name there.  Both
    upstream blocks are named [upstream-auto-1] and the counter ends at 1. *)
Theorem parse_upstreams_aliased_entry :
  is_anonymous <$> upstream_entries aliased_document = [true; true] ∧
  match parse_upstreams aliased_document (Process 0 None [] ∅) with
  | (p', Ok (blocks, _)) =>
      upstream_block_name <$> blocks = [VStr "upstream-auto-1"; VStr "upstream-auto-1"] ∧
      ¬ NoDup (anonymous_names (upstream_entries aliased_document) blocks) ∧
      _upstream_counter p' = 1%Z
  | (_, Raise _) => False
  end.
Proof.
  split; [reflexivity|]. vm_compute. split_and!; [reflexivity| |reflexivity].
  intros Hdup. apply NoDup_cons in Hdup as [Hfresh _]. apply Hfresh, list_elem_of_here.
Qed.

(** ** The upstream types *)

Lemma configs_append_known server_name u (configs : gmap string (list upstream)) :
  known_type u →
  map_Forall (λ _, Forall known_type) configs →
  map_Forall (λ _, Forall known_type) (configs_append server_name u configs).
Proof.
  intros Hu Hall. unfold configs_append. apply map_Forall_insert_2; [|done].
  apply Forall_app. split; [|by apply Forall_singleton].
  destruct (configs !! server_name) as [records|] eqn:Hlook; simpl; [|done].
  by apply (Hall server_name).
Qed.

Lemma parse_upstreams_entries_known server_name entries : ∀ acc p p' acc',
  for_each_M (parse_upstreams_entry server_name) acc entries p = (p', Ok acc') →
  map_Forall (λ _, Forall known_type) acc.2 →
  map_Forall (λ _, Forall known_type) acc'.2.
Proof.
  induction entries as [|entry entries IH]; intros acc p p' acc'.
  - by intros [= <- <-].
  - intros (acc1 & p1 & H1 & H2)%M_bind_ok_inv Hacc. eapply IH; [exact H2|].
    apply M_bind_ok_inv in H1 as (u & q & Hu & H1). injection H1 as <- <-.
    apply parse_single_upstream_known in Hu. by apply configs_append_known.
Qed.

Lemma parse_upstreams_servers_known items : ∀ acc p p' acc',
  for_each_M parse_upstreams_server acc items p = (p', Ok acc') →
  map_Forall (λ _, Forall known_type) acc.2 →
  map_Forall (λ _, Forall known_type) acc'.2.
Proof.
  induction items as [|[server_name server_config] items IH]; intros acc p p' acc'.
  - by intros [= <- <-].
  - intros (acc1 & p1 & H1 & H2)%M_bind_ok_inv Hacc. eapply IH; [exact H2|].
    unfold parse_upstreams_server in H1.
    apply M_bind_ok_inv in H1 as (has & q & [Hhas ->]%lift_ok_inv & H1).
    destruct has; simpl in H1.
    + apply M_bind_ok_inv in H1 as (config & q & [Hconfig ->]%lift_ok_inv & H1).
      apply M_bind_ok_inv in H1 as (entries & q & [Hentries ->]%lift_ok_inv & H1).
      by eapply parse_upstreams_entries_known.
    + by injection H1 as <- <-.
Qed.

Lemma proxy_locations_ok (py_str : pyval → string) (records : list upstream) :
  Forall known_type records →
  ∀ extra_config, is_ok (for_each (proxy_location py_str) extra_config records) = true.
Proof.
  induction 1 as [|u records Hu _ IH]; intros extra_config; [done|].
  destruct u as [name location url type]. unfold known_type in Hu. simpl in Hu.
  destruct Hu as [-> | ->]; simpl; apply IH.
Qed.

(** C10. Every upstream record that [parse_upstreams] hands to the servers has
    the type [http] or [uwsgi]; hence the loop over the upstreams in
    [generate_server], run on the records of any server name, completes
    without reaching its [NotImplementedError] branch. *)
Theorem parse_upstreams_known_types
    (input_config : pyval) (p p' : process)
    (blocks : list pyval) (configs : gmap string (list upstream)) :
  parse_upstreams input_config p = (p', Ok (blocks, configs)) →
  ∀ name : string,
    Forall (λ u, u_type u = "http" ∨ u_type u = "uwsgi") (default [] (configs !! name)) ∧
    ∀ (py_str : pyval → string) (extra_config : list pyval),
      is_ok (for_each (proxy_location py_str) extra_config (default [] (configs !! name)))
      = true.
Proof.
  intros (servers & q & [Hservers ->]%lift_ok_inv & H)%M_bind_ok_inv.
  apply M_bind_ok_inv in H as (items & q & [Hitems ->]%lift_ok_inv & H).
  apply parse_upstreams_servers_known in H; [|apply map_Forall_empty].
  intros name.
  assert (Hknown : Forall known_type (default [] (configs !! name))).
  { destruct (configs !! name) as [records|] eqn:Hlook; simpl; [|done].
    by apply (H name). }
  split; [exact Hknown|]. intros py_str extra_config. by apply proxy_locations_ok.
Qed.

Lemma parse_upstreams_known_types_witness :
  Forall (λ u, u_type u = "http" ∨ u_type u = "uwsgi")
    (default []
       (match (parse_upstreams two_servers_document (Process 0 None [] ∅)).2 with
        | Ok (_, configs) => configs
        | Raise _ => ∅
        end !! "api")).
Proof.
  destruct (parse_upstreams two_servers_document (Process 0 None [] ∅))
    as [p' [[blocks configs]|e]] eqn:Hrun; [|by vm_compute in Hrun].
  exact (proj1 (parse_upstreams_known_types
                  two_servers_document (Process 0 None [] ∅) p' blocks configs Hrun "api")).
Defined.

(** ** Servers *)

Lemma bind_ok_inv {A B} (m : result A) (k : A → result B) (b : B) :
  m ≫= k = Ok b → ∃ a, m = Ok a ∧ k a = Ok b.
Proof. destruct m as [a|e]; [|done]. by exists a. Qed.

Lemma for_each_invariant {A B} (f : B → A → result B) (I : B → Prop) (xs : list A) :
  (∀ acc x acc', f acc x = Ok acc' → I acc → I acc') →
  ∀ acc acc', for_each f acc xs = Ok acc' → I acc → I acc'.
Proof.
  intros Hstep. induction xs as [|x xs IH]; intros acc acc'; simpl.
  - by intros [= <-].
  - intros (acc1 & H1 & H2)%bind_ok_inv Hacc. eauto.
Qed.

Lemma list_comprehension_Forall {A B} (f : A → result B) (P : B → Prop) (items : list A) :
  (∀ x y, f x = Ok y → P y) →
  ∀ ys, list_comprehension f items = Ok ys → Forall P ys.
Proof.
  intros Hf. induction items as [|x items IH]; intros ys; simpl.
  - by intros [= <-].
  - intros (y & Hy & (ys' & Hys & [= <-])%bind_ok_inv)%bind_ok_inv.
    constructor; eauto.
Qed.

Lemma is_if_block_strings (parts : list string) : is_if_block (VList (VStr <$> parts)) = false.
Proof.
  unfold is_if_block. rewrite fmap_last. destruct (last parts); simpl; apply andb_false_r.
Qed.

Lemma generate_static_files_entry_no_if (description mount : pyval) :
  generate_static_files_entry description = Ok mount → is_if_block mount = false.
Proof.
  unfold generate_static_files_entry.
  intros (? & _ & H)%bind_ok_inv. destruct (negb _); [done|].
  apply bind_ok_inv in H as (? & _ & H). destruct (negb _); [done|].
  apply bind_ok_inv in H as (? & _ & H).
  apply bind_ok_inv in H as (? & _ & H).
  apply bind_ok_inv in H as (? & _ & H).
  apply bind_ok_inv in H as (? & _ & H).
  apply bind_ok_inv in H as (? & _ & H).
  apply bind_ok_inv in H as (? & _ & [= <-]). done.
Qed.

Lemma generate_static_files_no_if (description : pyval) (mounts : list pyval) :
  generate_static_files description = Ok mounts → no_if_block mounts.
Proof.
  intros (items & _ & H)%bind_ok_inv.
  eapply list_comprehension_Forall; [|exact H]. apply generate_static_files_entry_no_if.
Qed.

(** What one round of the first loop of [generate_server] does to the locals. *)
Lemma generate_server_item_ok (name : string) (vars vars' : server_locals)
    (item : string) (content : pyval) :
  generate_server_item name vars (item, content) = Ok vars' →
  server_name vars' = (if decide (item = "server_name") then content else server_name vars) ∧
  tls vars' = (if decide (item = "tls") then content else tls vars) ∧
  check_host_header vars' =
    (if decide (item = "check_host_header") then
       match content with VBool b => b | _ => check_host_header vars end
     else check_host_header vars) ∧
  (no_if_block (extra_config vars) → no_if_block (extra_config vars')).
Proof.
  unfold generate_server_item.
  destruct (String.eqb_spec item "server_raw_options") as [->|_].
  { destruct content as [ | | | |options| | | ]; try done.
    intros (lines & Hlines & [= <-])%bind_ok_inv. simpl. split_and!; [done..|].
    intros Hextra. apply Forall_app. split; [done|].
    eapply list_comprehension_Forall; [|exact Hlines]. simpl.
    intros option line (parts & _ & [= <-])%bind_ok_inv. apply is_if_block_strings. }
  destruct (String.eqb_spec item "server_name") as [->|Hn1].
  { intros [= <-]. simpl. done. }
  rewrite (decide_False (P := item = "server_name")) by done.
  destruct (String.eqb_spec item "static_files") as [->|_].
  { intros (mounts & Hmounts & [= <-])%bind_ok_inv. simpl. split_and!; [done..|].
    intros Hextra. apply Forall_app. split; [done|].
    by eapply generate_static_files_no_if. }
  destruct (String.eqb_spec item "tls") as [->|Hn2].
  { intros [= <-]. simpl. done. }
  rewrite (decide_False (P := item = "tls")) by done.
  destruct (String.eqb_spec item "check_host_header") as [->|Hn3].
  { destruct content as [ |b| | | | | | ]; try done. intros [= <-]. simpl. done. }
  rewrite (decide_False (P := item = "check_host_header")) by done.
  destruct (String.eqb_spec item "upstream") as [->|_]; [|done].
  by intros [= <-].
Qed.

(** The locals after the first loop, for a dictionary (its keys are distinct). *)
Lemma generate_server_items_ok (name : string) (d : list (string * pyval)) :
  NoDup d.*1 →
  ∀ vars vars',
  for_each (generate_server_item name) vars d = Ok vars' →
  server_name vars' = default (server_name vars) (dict_lookup "server_name" d) ∧
  tls vars' = default (tls vars) (dict_lookup "tls" d) ∧
  check_host_header vars' =
    match dict_lookup "check_host_header" d with
    | Some (VBool b) => b
    | _ => check_host_header vars
    end ∧
  (no_if_block (extra_config vars) → no_if_block (extra_config vars')).
Proof.
  induction d as [|[item content] d IH]; intros Hdup vars vars'.
  - by intros [= <-].
  - apply NoDup_cons in Hdup as [Hfresh Hdup].
    apply dict_lookup_None in Hfresh. simpl in Hfresh. simpl.
    intros (vars1 & (Hn & Ht & Hc & He)%generate_server_item_ok & H)%bind_ok_inv.
    apply (IH Hdup) in H as (Hn' & Ht' & Hc' & He').
    rewrite Hn', Ht', Hc', Hn, Ht, Hc. split_and!.
    + destruct (decide (item = "server_name")) as [->|]; [by rewrite Hfresh|done].
    + destruct (decide (item = "tls")) as [->|]; [by rewrite Hfresh|done].
    + destruct (decide (item = "check_host_header")) as [->|]; [|done].
      rewrite Hfresh. by destruct content.
    + auto.
Qed.

Lemma resolve_tls_invalid (py_str : pyval → string) (name : string)
    (vars : server_locals) (p : process) :
  tls vars = VNone ∨ tls vars = VBool true →
  resolve_tls py_str name vars p = (p, Raise (Exception (name +:+ ".tls value is invalid"))).
Proof. unfold resolve_tls. by intros [-> | ->]. Qed.

Lemma generate_server_eq (py_str : pyval → string) (name : string)
    (d : list (string * pyval)) (upstreams : list upstream) (p : process) :
  generate_server py_str name (VDict d) upstreams p =
  match for_each (generate_server_item name) (ServerLocals VNone VNone true []) d with
  | Raise e => (p, Raise e)
  | Ok vars =>
      if negb (py_truthy (server_name vars)) then
        (p, Raise (Exception "server_name is required"))
      else
        match resolve_tls py_str name vars p with
        | (q, Raise e) => (q, Raise e)
        | (q, Ok (use_tls, extra)) =>
            match for_each (proxy_location py_str) extra upstreams with
            | Raise e => (q, Raise e)
            | Ok extra' => (q, Ok (server_blocks py_str name vars use_tls extra'))
            end
        end
  end.
Proof.
  unfold generate_server. rewrite M_bind_eq. simpl. rewrite M_bind_eq. unfold lift at 1.
  destruct (for_each _ _ d) as [vars|e]; [|done].
  destruct (negb (py_truthy (server_name vars))); [done|].
  rewrite M_bind_eq. destruct (resolve_tls py_str name vars p) as [q [[use_tls extra]|e]];
    [|done].
  rewrite M_bind_eq. unfold lift at 1.
  destruct (for_each (proxy_location py_str) extra upstreams) as [extra'|e]; [|done].
  by destruct use_tls.
Qed.

Lemma resolve_tls_use_tls (py_str : pyval → string) (name : string) (vars : server_locals)
    (p q : process) (use_tls : bool) (extra : list pyval) :
  resolve_tls py_str name vars p = (q, Ok (use_tls, extra)) →
  use_tls = bool_decide (tls vars ≠ VBool false).
Proof.
  unfold resolve_tls. destruct (tls vars) as [ |[|]| |s|certs| |d|a d]; try done.
  - by intros [= <- <- <-].
  - destruct (String.eqb s "auto"); [|done].
    intros (? & ? & _ & (? & ? & _ & [= <- <- <-])%M_bind_ok_inv)%M_bind_ok_inv. done.
  - by intros (? & ? & _ & [= <- <- <-])%M_bind_ok_inv.
  - by intros (? & ? & _ & [= <- <- <-])%M_bind_ok_inv.
  - by intros (? & ? & _ & [= <- <- <-])%M_bind_ok_inv.
Qed.

(** The values of [tls] with which [resolve_tls] returns. *)
Lemma resolve_tls_modes (py_str : pyval → string) (name : string) (vars : server_locals)
    (p q : process) (use_tls : bool) (extra : list pyval) :
  resolve_tls py_str name vars p = (q, Ok (use_tls, extra)) →
  tls vars = VBool false ∨ tls_required_mode (Some (tls vars)).
Proof.
  unfold resolve_tls, tls_required_mode.
  destruct (tls vars) as [ |[|]| |s|certs| |d|a d]; try done.
  - by left.
  - destruct (String.eqb_spec s "auto") as [->|_]; [intros _; right; by left|done].
  - intros _. right. right. right. right. by eexists.
  - intros _. right. right. left. by eexists.
  - intros _. right. right. right. left. by eexists _, _.
Qed.

(** C1, as the code has it.  For a server entry whose [tls] is absent or
    [true], [generate_server] emits no block and changes nothing: it raises.
    When the rest of the entry is accepted (the first loop ends and
    [server_name] is not empty) the error is [<name>.tls value is invalid].
    Whenever [generate_server] returns, [tls] is [false] and there is one
    block, or [tls] is one of the modes that ask for TLS ([auto], a
    certificate record, a list of records) and there are two: the block that
    redirects to HTTPS and the block that listens on 443 with TLS. *)
Theorem generate_server_tls_absent_or_true
    (py_str : pyval → string) (name : string) (d : list (string * pyval))
    (upstreams : list upstream) (p : process) :
  NoDup d.*1 →
  (dict_lookup "tls" d = None ∨ dict_lookup "tls" d = Some (VBool true) →
   ∃ e : exn,
     generate_server py_str name (VDict d) upstreams p = (p, Raise e) ∧
     ∀ vars : server_locals,
       for_each (generate_server_item name) (ServerLocals VNone VNone true []) d = Ok vars →
       py_truthy (server_name vars) = true →
       e = Exception (name +:+ ".tls value is invalid")) ∧
  (∀ (p' : process) (servers : list pyval),
     generate_server py_str name (VDict d) upstreams p = (p', Ok servers) →
     (dict_lookup "tls" d = Some (VBool false) ∧ length servers = 1%nat) ∨
     (tls_required_mode (dict_lookup "tls" d) ∧
      ∃ redirect tls_server : list pyval,
        servers = [ VTuple [VStr "server"; VList redirect];
                    VTuple [VStr "server"; VList tls_server] ] ∧
        directive ["return"; "301";
                   "https://" +:+
                   domain_text py_str (default VNone (dict_lookup "server_name" d)) +:+
                   "$request_uri"] ∈ redirect ∧
        directive ["listen"; "443"; "ssl"; "http2"; "deferred"; "reuseport"] ∈ tls_server)).
Proof.
  intros Hdup. split.
  - intros Htls. unfold generate_server. rewrite M_bind_eq. simpl.
    rewrite M_bind_eq. unfold lift at 1.
    destruct (for_each _ _ d) as [vars|e] eqn:Hloop; [|by exists e].
    apply generate_server_items_ok in Hloop as (_ & Hvars & _); [|done].
    destruct (py_truthy (server_name vars)) eqn:Htruthy; simpl.
    + rewrite M_bind_eq, resolve_tls_invalid.
      * eexists. split; [done|]. by intros ? [= <-] _.
      * rewrite Hvars. simpl. destruct Htls as [-> | ->]; auto.
    + eexists. split; [done|]. intros ? [= <-]. by rewrite Htruthy.
  - intros p' servers. rewrite generate_server_eq.
    destruct (for_each _ _ d) as [vars|e] eqn:Hloop; [|done].
    apply generate_server_items_ok in Hloop as (Hname & Hvars & _); [|done].
    simpl in Hname, Hvars.
    destruct (negb (py_truthy (server_name vars))); [done|].
    destruct (resolve_tls py_str name vars p) as [q [[use_tls extra]|e]] eqn:Htls; [|done].
    pose proof (resolve_tls_use_tls _ _ _ _ _ _ _ Htls) as ->.
    apply resolve_tls_modes in Htls.
    destruct (for_each _ extra upstreams) as [extra'|e]; [|done].
    intros [= <- <-]. rewrite <-Hname. rewrite Hvars in Htls |- *.
    destruct Htls as [Hfalse | Hmode].
    + left. rewrite Hfalse.
      split; [destruct (dict_lookup "tls" d); simpl in Hfalse; congruence|].
      by rewrite bool_decide_eq_false_2 by (intros H; by apply H).
    + right. assert (Hsome : tls_required_mode (dict_lookup "tls" d)).
      { destruct (dict_lookup "tls" d) as [v|]; [done|].
        destruct Hmode as [[=] | [[? [=]] | [(? & ? & [=]) | [? [=]]]]]. }
      split; [done|].
      rewrite bool_decide_eq_true_2.
      2:{ intros Hfalse. rewrite Hfalse in Hmode.
          destruct Hmode as [[=] | [[? [=]] | [(? & ? & [=]) | [? [=]]]]]. }
      eexists _, _. split; [reflexivity|]. split.
      * apply elem_of_app. right. apply elem_of_app. right. apply list_elem_of_here.
      * apply elem_of_app. right. apply list_elem_of_here.
Qed.

Lemma generate_server_tls_absent_or_true_witness :
  ∃ e : exn,
    generate_server py_str_scalar "www"
      (VDict [("server_name", VStr "www.example.com"); ("tls", VBool true)]) []
      (Process 0 None [] ∅) = (Process 0 None [] ∅, Raise e) ∧
    ∀ vars : server_locals,
      for_each (generate_server_item "www") (ServerLocals VNone VNone true [])
        [("server_name", VStr "www.example.com"); ("tls", VBool true)] = Ok vars →
      py_truthy (server_name vars) = true →
      e = Exception ("www" +:+ ".tls value is invalid").
Proof.
  refine (proj1 (generate_server_tls_absent_or_true py_str_scalar "www"
                   [("server_name", VStr "www.example.com"); ("tls", VBool true)] []
                   (Process 0 None [] ∅) _) _).
  - apply (bool_decide_unpack _). vm_compute. exact I.
  - right. reflexivity.
Defined.

(** C1 as stated fails: with [tls] absent, and with [tls: true], the server
    is refused instead of getting the two blocks of a TLS server. *)
Lemma generate_server_tls_default_refused :
  generate_server py_str_scalar "www" (VDict [("server_name", VStr "www.example.com")]) []
    (Process 0 None [] ∅) =
    (Process 0 None [] ∅, Raise (Exception "www.tls value is invalid")) ∧
  generate_server py_str_scalar "www"
    (VDict [("server_name", VStr "www.example.com"); ("tls", VBool true)]) []
    (Process 0 None [] ∅) =
    (Process 0 None [] ∅, Raise (Exception "www.tls value is invalid")).
Proof. split; reflexivity. Qed.

(** ** The host check *)

Lemma generate_tls_config_no_if (py_str : pyval → string) (cert : pyval)
    (config : list pyval) :
  generate_tls_config py_str cert = Ok config → no_if_block config.
Proof.
  unfold generate_tls_config.
  intros (certificate & _ & (key & _ & (has & _ & H)%bind_ok_inv)%bind_ok_inv)%bind_ok_inv.
  destruct has.
  - apply bind_ok_inv in H as (root_chain & _ & [= <-]). by repeat constructor.
  - injection H as <-. by repeat constructor.
Qed.

Lemma resolve_tls_no_if (py_str : pyval → string) (name : string) (vars : server_locals)
    (p p' : process) (use_tls : bool) (extra : list pyval) :
  resolve_tls py_str name vars p = (p', Ok (use_tls, extra)) →
  no_if_block (extra_config vars) → no_if_block extra.
Proof.
  unfold resolve_tls. intros H Hextra.
  destruct (tls vars) as [ |[|]| |s|certs| |d|a d]; try done.
  - by injection H as <- <- <-.
  - destruct (String.eqb s "auto"); [|done].
    apply M_bind_ok_inv in H as (cert & q & _ & H).
    apply M_bind_ok_inv in H as (config & q' & [Hconfig ->]%lift_ok_inv & [= <- <- <-]).
    apply generate_tls_config_no_if in Hconfig.
    apply Forall_app. split; [done|]. apply Forall_app. split; [done|].
    by repeat constructor.
  - apply M_bind_ok_inv in H as (extra' & q & [Hloop ->]%lift_ok_inv & [= <- <- <-]).
    revert Hloop Hextra. apply for_each_invariant.
    intros acc cert acc' (config & Hconfig & [= <-])%bind_ok_inv Hacc.
    apply Forall_app. split; [done|]. by eapply generate_tls_config_no_if.
  - apply M_bind_ok_inv in H as (config & q & [Hconfig ->]%lift_ok_inv & [= <- <- <-]).
    apply Forall_app. split; [done|]. by eapply generate_tls_config_no_if.
  - apply M_bind_ok_inv in H as (config & q & [Hconfig ->]%lift_ok_inv & [= <- <- <-]).
    apply Forall_app. split; [done|]. by eapply generate_tls_config_no_if.
Qed.

Lemma proxy_locations_no_if (py_str : pyval → string) (upstreams : list upstream)
    (extra extra' : list pyval) :
  for_each (proxy_location py_str) extra upstreams = Ok extra' →
  no_if_block extra → no_if_block extra'.
Proof.
  apply for_each_invariant.
  intros acc u acc' (config & _ & [= <-])%bind_ok_inv Hacc.
  apply Forall_app. split; [done|]. by repeat constructor.
Qed.

Lemma is_if_block_host_check (py_str : pyval → string) (domain : pyval) :
  is_if_block (host_check py_str domain) = true.
Proof. reflexivity. Qed.

Lemma no_if_block_not_elem (py_str : pyval → string) (domain : pyval) (config : list pyval) :
  no_if_block config → host_check py_str domain ∉ config.
Proof.
  intros Hconfig Hin. unfold no_if_block in Hconfig. rewrite Forall_forall in Hconfig.
  apply Hconfig in Hin. by rewrite is_if_block_host_check in Hin.
Qed.

(** The children of the three kinds of server block. *)
Lemma server_children_host_check (py_str : pyval → string) (domain : pyval)
    (strict : bool) (comment extra : list pyval) (base : pyval → bool → list pyval) :
  base = base_config_https_redirect py_str ∨ base = base_config_https py_str ∨
    base = base_config_http py_str →
  no_if_block comment → no_if_block extra →
  (host_check py_str domain ∈ comment ++ base domain strict ++ extra ↔ strict = true) ∧
  (strict = false → no_if_block (comment ++ base domain strict ++ extra)).
Proof.
  intros Hbase Hcomment Hextra.
  assert (Htrue : host_check py_str domain ∈ base domain true).
  { destruct Hbase as [-> | [-> | ->]]; repeat first [apply list_elem_of_here | apply list_elem_of_further]. }
  assert (Hfalse : no_if_block (base domain false)).
  { destruct Hbase as [-> | [-> | ->]]; by repeat constructor. }
  destruct strict.
  - split; [|done]. split; [done|]. intros _.
    apply elem_of_app. right. apply elem_of_app. by left.
  - assert (Hall : no_if_block (comment ++ base domain false ++ extra)).
    { apply Forall_app. split; [done|]. apply Forall_app. by split. }
    split; [|done]. split; [|done].
    intros Hin. by apply no_if_block_not_elem in Hin.
Qed.

(** C6. Every server block that [generate_server] returns for an entry has,
    among its directives, the conditional of the specification, [if
    ($http_host !~* ^<domain>$) { return 444; }], which answers 444 to a
    [Host] header not matching the configured domain without regard to case,
    if and only if [check_host_header] is true, which it is when the field
    is absent; when it is false the block holds no [if] block at all. *)
Theorem generate_server_host_check
    (py_str : pyval → string) (name : string) (d : list (string * pyval))
    (upstreams : list upstream) (p p' : process) (servers : list pyval) :
  NoDup d.*1 →
  generate_server py_str name (VDict d) upstreams p = (p', Ok servers) →
  let strict :=
    match dict_lookup "check_host_header" d with
    | Some (VBool b) => b
    | _ => true
    end in
  let domain := default VNone (dict_lookup "server_name" d) in
  servers ≠ [] ∧
  ∀ server_block : pyval, server_block ∈ servers →
    ∃ children : list pyval,
      server_block = VTuple [VStr "server"; VList children] ∧
      (to_py (host_conditional (domain_text py_str domain)) ∈ children ↔ strict = true) ∧
      (strict = false → no_if_block children).
Proof.
  intros Hdup Hrun strict domain.
  change (to_py (host_conditional (domain_text py_str domain)))
    with (host_check py_str domain).
  unfold generate_server in Hrun.
  apply M_bind_ok_inv in Hrun as (items & q & [[= <-] ->]%lift_ok_inv & Hrun).
  apply M_bind_ok_inv in Hrun as (vars & q & [Hloop ->]%lift_ok_inv & Hrun).
  apply generate_server_items_ok in Hloop as (Hname & _ & Hstrict & Hextra); [|done].
  simpl in Hname, Hstrict. fold domain in Hname. fold strict in Hstrict.
  specialize (Hextra (Forall_nil_2 _)).
  destruct (negb (py_truthy (server_name vars))); [done|].
  apply M_bind_ok_inv in Hrun as ([use_tls extra] & q & Htls & Hrun).
  apply resolve_tls_no_if in Htls; [|done].
  apply M_bind_ok_inv in Hrun as (extra' & q' & [Hproxy ->]%lift_ok_inv & Hrun).
  apply proxy_locations_no_if in Hproxy; [|done].
  rewrite Hname, Hstrict in Hrun.
  assert (Hcomment : ∀ rest, no_if_block [VTuple (VStr "#" :: rest)]).
  { intros rest. by repeat constructor. }
  destruct use_tls; injection Hrun as <- <-; (split; [done|]); intros server_block Hin.
  - apply elem_of_cons in Hin as [-> | Hin]; [|apply list_elem_of_singleton in Hin as ->].
    + eexists. split; [done|].
      pose proof (server_children_host_check py_str domain strict
                    [VTuple [VStr "#"; VStr name; VStr "- force HTTPS"]] []
                    (base_config_https_redirect py_str)) as H.
      rewrite (right_id_L [] (++)) in H.
      apply H; [by left | apply Hcomment | apply Forall_nil_2].
    + eexists. split; [done|].
      apply (server_children_host_check py_str domain strict
               [VTuple [VStr "#"; VStr name]] extra' (base_config_https py_str));
        [by right; left | apply Hcomment | done].
  - apply list_elem_of_singleton in Hin as ->.
    eexists. split; [done|].
    apply (server_children_host_check py_str domain strict
             [VTuple [VStr "#"; VStr name]] extra' (base_config_http py_str));
      [by right; right | apply Hcomment | done].
Qed.

Lemma generate_server_host_check_witness :
  match (generate_server py_str_scalar "api"
           (VDict [("server_name", VStr "api.example.com"); ("tls", VStr "auto")]) []
           (Process 0 None [] ∅)).2 with
  | Ok servers =>
      servers ≠ [] ∧
      ∀ server_block : pyval, server_block ∈ servers →
        ∃ children : list pyval,
          server_block = VTuple [VStr "server"; VList children] ∧
          (to_py (host_conditional "api.example.com") ∈ children ↔ true = true) ∧
          (true = false → no_if_block children)
  | Raise _ => False
  end.
Proof.
  destruct (generate_server py_str_scalar "api"
              (VDict [("server_name", VStr "api.example.com"); ("tls", VStr "auto")]) []
              (Process 0 None [] ∅)) as [p' [servers|e]] eqn:Hrun; [|by vm_compute in Hrun].
  apply (generate_server_host_check py_str_scalar "api"
           [("server_name", VStr "api.example.com"); ("tls", VStr "auto")] []
           (Process 0 None [] ∅) p' servers).
  - apply (bool_decide_unpack _). vm_compute. exact I.
  - exact Hrun.
Defined.

(** ** Global HTTP settings *)

Lemma first_token_getitem_0 (setting : pyval) (s : string) :
  first_token setting = Some s → py_getitem_0 setting = Ok (VStr s).
Proof.
  destruct setting as [ | | | |[|[] ?]|[|[] ?]| | ]; simpl; try done; by intros [= ->].
Qed.

Lemma find_option_spec (key : string) (http : list pyval) : ∀ n : nat,
  Forall has_first_token http →
  (∃ (idx : nat) (setting : pyval),
     find_option key http n = Ok (Some (n + idx)%nat) ∧
     http !! idx = Some setting ∧ first_token setting = Some key ∧
     ∀ (j : nat) (setting' : pyval),
       (j < idx)%nat → http !! j = Some setting' → first_token setting' ≠ Some key) ∨
  (find_option key http n = Ok None ∧
   ∀ setting : pyval, setting ∈ http → first_token setting ≠ Some key).
Proof.
  induction http as [|setting http IH]; intros n Hwf.
  - right. split; [done|]. by intros setting Hin%elem_of_nil.
  - apply Forall_cons in Hwf as [[s Hs] Hwf]. simpl.
    rewrite (first_token_getitem_0 _ _ Hs). simpl.
    destruct (String.eqb_spec s key) as [->|Hne].
    + left. exists 0%nat, setting. rewrite Nat.add_0_r. split_and!; [done..|]. lia.
    + destruct (IH (S n) Hwf) as [(idx & setting' & Hfind & Hlook & Hfirst & Hmin) | [Hfind Hnone]].
      * left. exists (S idx), setting'. split_and!; [|done..|].
        { rewrite Hfind. do 2 f_equal. lia. }
        intros [|j] o Hj; simpl.
        -- intros [= <-]. rewrite Hs. congruence.
        -- apply Hmin. lia.
      * right. split; [done|]. intros o [-> | Hin]%elem_of_cons; [|by apply Hnone].
        rewrite Hs. congruence.
Qed.

Lemma str_split_cons (sep : ascii) (s : string) : ∃ w ws, str_split sep s = w :: ws.
Proof.
  induction s as [|c s (w & ws & IH)]; simpl; [by eexists _, _|].
  destruct (decide (c = sep)); [by eexists _, _|]. rewrite IH. by eexists _, _.
Qed.

Lemma elem_of_insert_other {A} (l : list A) (idx : nat) (x y new : A) :
  l !! idx = Some y → x ≠ y → x ∈ l → x ∈ <[idx := new]> l.
Proof.
  intros Hy Hne (i & Hi)%list_elem_of_lookup.
  apply list_elem_of_lookup. exists i.
  rewrite list_lookup_insert_ne; [done|]. intros ->. congruence.
Qed.

(** One round of the loop of [generate_http]. *)
Lemma generate_http_entry_merged (http : list pyval) (entry : string) :
  Forall has_first_token http →
  ∃ after : list pyval,
    generate_http_entry http (VStr entry) = Ok after ∧
    merged http (str_split " " entry) after ∧
    Forall has_first_token after ∧
    (∀ x : pyval, x ∈ http → first_token x = Some "include" → x ∈ after) ∧
    (default "" (head (str_split " " entry)) = "include" →
     VList (VStr <$> str_split " " entry) ∈ after).
Proof.
  intros Hwf. unfold generate_http_entry, merged. simpl.
  destruct (str_split_cons " " entry) as (key & rest & ->). simpl.
  assert (Hentry : has_first_token (VList (VStr key :: (VStr <$> rest)))) by by eexists.
  destruct (String.eqb_spec key "include") as [->|Hne].
  { eexists. split; [done|]. split_and!; [done..| | |].
    - apply Forall_app. split; [done|]. by apply Forall_singleton.
    - intros x Hx _. apply elem_of_app. by left.
    - intros _. apply elem_of_app. right. by apply list_elem_of_singleton. }
  destruct (find_option_spec key http 0 Hwf)
    as [(idx & setting & -> & Hlook & Hfirst & Hmin) | [-> Hnone]]; simpl.
  - eexists. split; [done|]. split_and!; [done| | | | |done].
    + intros _ idx' setting' Hlook' Hfirst' Hmin'.
      destruct (Nat.lt_trichotomy idx idx') as [Hlt | [-> | Hgt]]; [|done|].
      * by destruct (Hmin' idx setting Hlt Hlook).
      * by destruct (Hmin idx' setting' Hgt Hlook').
    + intros _ Hnone. by destruct (Hnone setting (list_elem_of_lookup_2 _ _ _ Hlook)).
    + by apply Forall_insert.
    + intros x Hx Hinclude. eapply elem_of_insert_other; [done| |done].
      intros ->. congruence.
  - eexists. split; [done|]. split_and!; [done| |done| | |done].
    + intros _ idx setting Hlook Hfirst _.
      by destruct (Hnone setting (list_elem_of_lookup_2 _ _ _ Hlook)).
    + apply Forall_app. split; [done|]. by apply Forall_singleton.
    + intros x Hx _. apply elem_of_app. by left.
Qed.

(** The whole loop: the table after each entry. *)
Lemma generate_http_entries_merged (entries : list string) : ∀ http : list pyval,
  Forall has_first_token http →
  ∃ tables : list (list pyval),
    length tables = length entries ∧
    for_each generate_http_entry http (VStr <$> entries) = Ok (default http (last tables)) ∧
    (∀ (i : nat) (entry : string), entries !! i = Some entry →
       ∃ before after : list pyval,
         (http :: tables) !! i = Some before ∧ tables !! i = Some after ∧
         merged before (str_split " " entry) after) ∧
    (∀ x : pyval, x ∈ http → first_token x = Some "include" →
       x ∈ default http (last tables)) ∧
    (∀ entry : string, entry ∈ entries →
       default "" (head (str_split " " entry)) = "include" →
       VList (VStr <$> str_split " " entry) ∈ default http (last tables)).
Proof.
  induction entries as [|entry entries IH]; intros http Hwf.
  - exists []. split_and!; [done..| |]; [done|]. by intros entry Hin%elem_of_nil.
  - destruct (generate_http_entry_merged http entry Hwf)
      as (after & Hstep & Hmerged & Hwf' & Hkeep & Hnew).
    destruct (IH after Hwf') as (tables & Hlen & Hloop & Hsteps & Hkeep' & Hnew').
    exists (after :: tables).
    assert (Hlast : default http (last (after :: tables)) = default after (last tables)).
    { rewrite last_cons. by destruct (last tables). }
    rewrite Hlast. split_and!.
    + simpl. by rewrite Hlen.
    + rewrite fmap_cons. simpl. by rewrite Hstep.
    + intros [|i] entry'; simpl.
      * intros [= <-]. by exists http, after.
      * apply Hsteps.
    + intros x Hx Hinclude. apply Hkeep'; [|done]. by apply Hkeep.
    + intros entry' [-> | Hin]%elem_of_cons Hinclude.
      * apply Hkeep'; [by apply Hnew|].
        destruct (str_split_cons " " entry) as (key & rest & Hsplit).
        rewrite Hsplit in Hinclude |- *. simpl in Hinclude |- *. by rewrite Hinclude.
      * by apply Hnew'.
Qed.

Lemma _NGINX_HTTP_first_tokens : Forall has_first_token _NGINX_HTTP.
Proof. repeat constructor; by eexists. Qed.

(** C8, as the code has it.  Each [http_raw_options] entry is split at every
    single space (not at runs of white space) into tokens and merged into the
    table, starting from the baseline: an entry whose first token is
    [include] is appended; any other entry replaces, in place, the first
    table entry with the same first token, and is appended when there is
    none.  The merge always succeeds, and every [include] entry of the input
    is in the resulting table. *)
Theorem generate_http_merges (d : list (string * pyval)) (entries : list string) :
  dict_lookup "http_raw_options" d = Some (VList (VStr <$> entries)) →
  ∃ tables : list (list pyval),
    length tables = length entries ∧
    generate_http (VDict d) = Ok (default _NGINX_HTTP (last tables)) ∧
    (∀ (i : nat) (entry : string), entries !! i = Some entry →
       ∃ before after : list pyval,
         (_NGINX_HTTP :: tables) !! i = Some before ∧ tables !! i = Some after ∧
         merged before (str_split " " entry) after) ∧
    (∀ entry : string, entry ∈ entries →
       default "" (head (str_split " " entry)) = "include" →
       VList (VStr <$> str_split " " entry) ∈ default _NGINX_HTTP (last tables)).
Proof.
  intros Hraw.
  destruct (generate_http_entries_merged entries _NGINX_HTTP _NGINX_HTTP_first_tokens)
    as (tables & Hlen & Hloop & Hsteps & _ & Hincludes).
  exists tables. split_and!; [done| |done..].
  unfold generate_http. simpl. rewrite Hraw. simpl. exact Hloop.
Qed.

Lemma generate_http_merges_witness :
  ∃ tables : list (list pyval),
    length tables = 3%nat ∧
    generate_http
      (VDict [("http_raw_options",
               VList [VStr "gzip off"; VStr "include /etc/nginx/conf.d/a.conf";
                      VStr "include /etc/nginx/conf.d/b.conf"])]) =
    Ok (default _NGINX_HTTP (last tables)) ∧
    (∀ (i : nat) (entry : string),
       ["gzip off"; "include /etc/nginx/conf.d/a.conf";
        "include /etc/nginx/conf.d/b.conf"] !! i = Some entry →
       ∃ before after : list pyval,
         (_NGINX_HTTP :: tables) !! i = Some before ∧ tables !! i = Some after ∧
         merged before (str_split " " entry) after) ∧
    (∀ entry : string,
       entry ∈ ["gzip off"; "include /etc/nginx/conf.d/a.conf";
                "include /etc/nginx/conf.d/b.conf"] →
       default "" (head (str_split " " entry)) = "include" →
       VList (VStr <$> str_split " " entry) ∈ default _NGINX_HTTP (last tables)).
Proof.
  apply (generate_http_merges
           [("http_raw_options",
             VList [VStr "gzip off"; VStr "include /etc/nginx/conf.d/a.conf";
                    VStr "include /etc/nginx/conf.d/b.conf"])]
           ["gzip off"; "include /etc/nginx/conf.d/a.conf";
            "include /etc/nginx/conf.d/b.conf"]).
  reflexivity.
Defined.

(** C8 as stated fails for a split at white space: the line [ gzip off]
    (with a leading space) has the first word [gzip], the first token of a
    baseline entry, yet it is appended with an empty first token and the
    baseline [gzip on] stays. *)
Lemma generate_http_leading_space :
  head (whitespace_split " gzip off") = Some "gzip" ∧
  _NGINX_HTTP !! 6%nat = Some (directive ["gzip"; "on"]) ∧
  generate_http (VDict [("http_raw_options", VList [VStr " gzip off"])]) =
    Ok (_NGINX_HTTP ++ [VList [VStr ""; VStr "gzip"; VStr "off"]]) ∧
  generate_http (VDict [("http_raw_options", VList [VStr " gzip off"])]) ≠
    Ok (<[6%nat := VList [VStr "gzip"; VStr "off"]]> _NGINX_HTTP).
Proof. split_and!; [reflexivity..|]. vm_compute. discriminate. Qed.

(** ** Determinism of a run *)

Lemma file_independent_ret {A} (a : A) : file_independent (mret a).
Proof. by intros p1 p2 H. Qed.

Lemma file_independent_lift {A} (r : result A) : file_independent (lift r).
Proof. by intros p1 p2 H. Qed.

Lemma file_independent_raise {A} (e : exn) : file_independent (@raise A e).
Proof. by intros p1 p2 H. Qed.

Lemma file_independent_bind {A B} (m : M A) (k : A → M B) :
  file_independent m → (∀ a, file_independent (k a)) → file_independent (m ≫= k).
Proof.
  intros Hm Hk p1 p2 Hp. rewrite !M_bind_eq.
  destruct (Hm p1 p2 Hp) as [Hq Hr].
  destruct (m p1) as [q1 r1], (m p2) as [q2 r2]. simpl in Hq, Hr. subst r2.
  destruct r1 as [a|e]; [by apply Hk|done].
Qed.

Lemma file_independent_print (line : string) : file_independent (print line).
Proof.
  intros p1 p2 (Hc & Ho & Ha). unfold print, same_run. simpl. by rewrite Hc, Ho, Ha.
Qed.

Lemma file_independent_incr : file_independent incr_upstream_counter.
Proof.
  intros p1 p2 (Hc & Ho & Ha). unfold incr_upstream_counter, same_run. simpl.
  by rewrite Hc, Ho, Ha.
Qed.

Lemma file_independent_set_le_domain_txt (contents : string) :
  file_independent (set_le_domain_txt contents).
Proof. by intros p1 p2 (Hc & Ho & Ha). Qed.

Lemma file_independent_current (v : pyval) : file_independent (current v).
Proof. intros p1 p2 (Hc & Ho & Ha). unfold current. simpl. by rewrite Ha. Qed.

Lemma file_independent_py_setitem (v : pyval) (key : string) (x : pyval) :
  file_independent (py_setitem v key x).
Proof.
  intros p1 p2 (Hc & Ho & Ha). unfold py_setitem, same_run.
  destruct v; simpl; by rewrite ?Hc, ?Ho, ?Ha.
Qed.

Lemma file_independent_for_each_M {A B} (f : B → A → M B) (xs : list A) :
  (∀ acc x, file_independent (f acc x)) → ∀ acc, file_independent (for_each_M f acc xs).
Proof.
  intros Hf. induction xs as [|x xs IH]; intros acc; simpl.
  - apply file_independent_ret.
  - by apply file_independent_bind.
Qed.

Create HintDb file_independent.
#[local] Hint Resolve file_independent_ret file_independent_lift file_independent_raise
  file_independent_print file_independent_incr file_independent_set_le_domain_txt
  file_independent_current file_independent_py_setitem
  : file_independent.

(** Goes through the binds and the case distinctions of a computation. *)
Ltac file_independent :=
  repeat first
    [ progress auto with file_independent
    | apply file_independent_bind; [|intros ?]
    | apply file_independent_for_each_M; intros ? ?
    | match goal with
      | |- file_independent (match ?x with _ => _ end) => destruct x
      | |- file_independent (let '(_, _) := ?x in _) => destruct x
      end ].

Lemma file_independent_emit_statement (white : string) (elems : list pyval) :
  file_independent (emit_statement white elems).
Proof. unfold emit_statement. file_independent. Qed.

Lemma file_independent_emit_children (children : list pyval) :
  Forall (λ c, ∀ indent, file_independent (emit_item indent c)) children →
  ∀ indent, file_independent (emit_nginx_conf children indent).
Proof.
  induction 1 as [|c children Hc _ IH]; intros indent; simpl.
  - apply file_independent_ret.
  - apply file_independent_bind; [apply Hc|]. intros _. apply IH.
Qed.

Lemma file_independent_emit_item (item : pyval) :
  (∀ indent, file_independent (emit_item indent item)) ∧
  match item with
  | VList children => Forall (λ c, ∀ indent, file_independent (emit_item indent c)) children
  | _ => True
  end.
Proof.
  assert (Hseq : ∀ kind elems,
    Forall (λ v, (∀ indent, file_independent (emit_item indent v)) ∧
                 match v with
                 | VList children =>
                     Forall (λ c, ∀ indent, file_independent (emit_item indent c)) children
                 | _ => True
                 end) elems →
    ∀ indent, file_independent (emit_item indent (py_seq kind elems))).
  { intros kind elems Helems indent.
    destruct (last elems) as [x|] eqn:Hlast.
    - apply last_Some in Hlast as [front ->].
      apply Forall_app in Helems as [_ [_ Hx]%Forall_singleton].
      destruct x as [ | | | |children| | | ];
        try (destruct kind; simpl; rewrite with_last_eq, last_snoc;
             apply file_independent_emit_statement).
      rewrite emit_item_block.
      apply file_independent_bind; [apply file_independent_lift|]. intros text.
      apply file_independent_bind; [apply file_independent_print|]. intros _.
      apply file_independent_bind; [by apply file_independent_emit_children|]. intros _.
      apply file_independent_print.
    - apply last_None in Hlast as ->. destruct kind; apply file_independent_raise. }
  induction item as [ |b|z|s|l IH|l IH|d IH|a d IH] using pyval_ind.
  - split; [intros indent; apply file_independent_raise|done].
  - split; [intros indent; apply file_independent_raise|done].
  - split; [intros indent; apply file_independent_raise|done].
  - split; [intros indent; apply file_independent_emit_statement|done].
  - split; [apply (Hseq AsList l IH)|]. eapply Forall_impl; [exact IH|]. by intros c [Hc _].
  - split; [apply (Hseq AsTuple l IH)|done].
  - split; [intros indent; apply file_independent_raise|done].
  - split; [intros indent; apply file_independent_raise|done].
Qed.

Lemma file_independent_emit_nginx_conf (config : list pyval) (indent : Z) :
  file_independent (emit_nginx_conf config indent).
Proof.
  apply file_independent_emit_children, Forall_forall.
  intros c _. apply file_independent_emit_item.
Qed.

Lemma file_independent_parse_upstreams (input_config : pyval) :
  file_independent (parse_upstreams input_config).
Proof.
  unfold parse_upstreams, parse_upstreams_server, parse_upstreams_entry,
    parse_single_upstream.
  file_independent.
Qed.

Lemma file_independent_generate_servers (py_str : pyval → string) (app_conf : pyval)
    (upstreams : gmap string (list upstream)) :
  file_independent (generate_servers py_str app_conf upstreams).
Proof.
  unfold generate_servers, generate_server, resolve_tls, activate_lets_encrypt.
  file_independent.
Qed.

(** [main] by the cases of its first lines. *)
Lemma main_cases (py_str : pyval → string) (sys_stderr : string) (argv : list string)
    (safe_load : string → result pyval) (p : process) :
  main py_str sys_stderr argv safe_load p =
  match argv !! 1%nat with
  | None => (p, Raise IndexError)
  | Some path =>
      match safe_load path with
      | Ok app_conf =>
          ('(upstreams_conf, upstreams_data) ← parse_upstreams app_conf;
           servers_conf ← generate_servers py_str app_conf upstreams_data;
           http ← lift (generate_http app_conf);
           let http := http ++ upstreams_conf ++ servers_conf in
           let nginx_conf := _NGINX_GLOBALS ++ [VTuple [VStr "http"; VList http]] in
           emit_nginx_conf nginx_conf 0) (new_document p).1
      | Raise FileNotFoundError =>
          (printed [sys_stderr +:+ " " +:+ "This image requires " +:+ path +:+
                    " to be present. Did you forget to docker-mount it?"] p,
           Raise (SystemExit 1))
      | Raise e => (p, Raise e)
      end
  end.
Proof.
  unfold main. rewrite (M_bind_eq (_ ≫= _)), (M_bind_eq (lift _)). unfold lift at 1.
  destruct (argv !! 1%nat) as [path|]; cbn [from_option]; [|done].
  destruct (safe_load path) as [app_conf|e]; [done|]. by destruct e.
Qed.

Lemma file_independent_generation (py_str : pyval → string) (app_conf : pyval) :
  file_independent
    ('(upstreams_conf, upstreams_data) ← parse_upstreams app_conf;
     servers_conf ← generate_servers py_str app_conf upstreams_data;
     http ← lift (generate_http app_conf);
     let http := http ++ upstreams_conf ++ servers_conf in
     let nginx_conf := _NGINX_GLOBALS ++ [VTuple [VStr "http"; VList http]] in
     emit_nginx_conf nginx_conf 0).
Proof.
  apply file_independent_bind; [apply file_independent_parse_upstreams|].
  intros [upstreams_conf upstreams_data].
  apply file_independent_bind; [apply file_independent_generate_servers|].
  intros servers_conf.
  apply file_independent_bind; [apply file_independent_lift|]. intros http.
  apply file_independent_emit_nginx_conf.
Qed.

(** C9. Two runs of [main] on the same arguments and the same file, each
    started with the counter at 0 and nothing printed yet, print the same
    text, byte for byte, and end the same way (both succeed, or both raise the
    same exception), whatever the first run or anything else left in the
    hand-off file and in the objects of an earlier document. *)
Theorem main_deterministic (py_str : pyval → string) (sys_stderr : string)
    (argv : list string) (safe_load : string → result pyval) (p1 p2 : process) :
  _upstream_counter p1 = 0%Z → stdout p1 = [] →
  _upstream_counter p2 = 0%Z → stdout p2 = [] →
  rendered_text (main py_str sys_stderr argv safe_load p1).1 =
    rendered_text (main py_str sys_stderr argv safe_load p2).1 ∧
  (main py_str sys_stderr argv safe_load p1).2 =
    (main py_str sys_stderr argv safe_load p2).2.
Proof.
  intros Hc1 Ho1 Hc2 Ho2.
  assert (Hmain : stdout (main py_str sys_stderr argv safe_load p1).1 =
                  stdout (main py_str sys_stderr argv safe_load p2).1 ∧
                  (main py_str sys_stderr argv safe_load p1).2 =
                  (main py_str sys_stderr argv safe_load p2).2).
  { rewrite !main_cases.
    destruct (argv !! 1%nat) as [path|]; [|simpl; by rewrite Ho1, Ho2].
    destruct (safe_load path) as [app_conf|e].
    - destruct (file_independent_generation py_str app_conf
                  (new_document p1).1 (new_document p2).1) as [(_ & Hout & _) Hresult];
        [|done].
      unfold same_run. simpl. by rewrite Hc1, Hc2, Ho1, Ho2.
    - destruct e; simpl; by rewrite Ho1, Ho2. }
  destruct Hmain as [Hout Hresult]. split; [|done]. unfold rendered_text. by rewrite Hout.
Qed.

Lemma main_deterministic_witness :
  rendered_text
    (main py_str_scalar "<stderr>" ["appconf.py"; "/etc/app.yml"]
       (λ _, Ok two_servers_document) (Process 0 None [] ∅)).1 =
  rendered_text
    (main py_str_scalar "<stderr>" ["appconf.py"; "/etc/app.yml"]
       (λ _, Ok two_servers_document) (Process 0 (Some "www.example.com") [] ∅)).1 ∧
  (main py_str_scalar "<stderr>" ["appconf.py"; "/etc/app.yml"]
     (λ _, Ok two_servers_document) (Process 0 None [] ∅)).2 =
  (main py_str_scalar "<stderr>" ["appconf.py"; "/etc/app.yml"]
     (λ _, Ok two_servers_document) (Process 0 (Some "www.example.com") [] ∅)).2.
Proof.
  apply (main_deterministic py_str_scalar "<stderr>" ["appconf.py"; "/etc/app.yml"]
           (λ _, Ok two_servers_document)
           (Process 0 None [] ∅) (Process 0 (Some "www.example.com") [] ∅));
    reflexivity.
Defined.

(** Without the reset the names of the anonymous upstreams, hence the text,
    change: the condition on the counter cannot be dropped. *)
Lemma main_counter_matters :
  (main py_str_scalar "<stderr>" ["appconf.py"; "/etc/app.yml"]
     (λ _, Ok two_servers_document) (Process 0 None [] ∅)).2 = Ok () ∧
  rendered_text
    (main py_str_scalar "<stderr>" ["appconf.py"; "/etc/app.yml"]
       (λ _, Ok two_servers_document) (Process 0 None [] ∅)).1 ≠
  rendered_text
    (main py_str_scalar "<stderr>" ["appconf.py"; "/etc/app.yml"]
       (λ _, Ok two_servers_document) (Process 3 None [] ∅)).1.
Proof. split; [reflexivity|]. vm_compute. discriminate. Qed.

(** * Further properties of the code *)

(** ** The serializer: composition, raw lines, ill-typed tokens *)

(** The directives of a list are rendered one after the other: serializing
    [config1 ++ config2] is serializing [config1], then, unless that raised,
    [config2]. *)
Theorem emit_nginx_conf_app (config1 config2 : list pyval) (indent : Z) (p : process) :
  emit_nginx_conf (config1 ++ config2) indent p =
  (emit_nginx_conf config1 indent;; emit_nginx_conf config2 indent) p.
Proof.
  revert p. induction config1 as [|item config1 IH]; intros p; [done|].
  simpl. rewrite !M_bind_eq.
  destruct (emit_item indent item p) as [q [[]|e]]; [|done].
  rewrite IH. by rewrite M_bind_eq.
Qed.

Lemma str_split_join (sep : ascii) (s : string) :
  String.concat (String sep "") (str_split sep s) = s.
Proof.
  induction s as [|c s IH]; [done|]. simpl.
  destruct (str_split_cons sep s) as (w & ws & Hsplit). rewrite Hsplit in IH |- *.
  destruct (decide (c = sep)) as [->|_].
  - change (String.concat (String sep "") ("" :: w :: ws))
      with (String sep (String.concat (String sep "") (w :: ws))).
    by rewrite IH.
  - destruct ws as [|w' ws].
    + simpl in IH |- *. by rewrite IH.
    + change (String.concat (String sep "") (String c w :: w' :: ws))
        with (String c (String.concat (String sep "") (w :: w' :: ws))).
      by rewrite IH.
Qed.

(** A raw option line goes through unchanged: split at the spaces (as
    [generate_server] and [generate_http] do) and serialized, it is printed as
    the line itself behind the indent, followed by [;] unless its first token
    is [#]. *)
Theorem emit_raw_option_verbatim (line : string) (indent : Z) (p : process) :
  emit_item indent (VList (VStr <$> str_split " " line)) p =
  (printed [ if is_comment (str_split " " line) then spaces indent +:+ line
             else spaces indent +:+ line +:+ ";" ] p, Ok ()).
Proof.
  assert (Hne : str_split " " line ≠ []).
  { by destruct (str_split_cons " " line) as (w & ws & ->). }
  change (VList (VStr <$> str_split " " line))
    with (py_seq AsList (VStr <$> str_split " " line)).
  rewrite (emit_item_statement AsList _ indent Hne).
  rewrite emit_statement_strings by done.
  by rewrite (str_split_join " " line).
Qed.

Lemma py_join_not_str (sep : string) (elems : list pyval) :
  (∃ v, v ∈ elems ∧ ∀ s, v ≠ VStr s) → py_join sep elems = Raise TypeError.
Proof.
  induction elems as [|x elems IH]; intros (v & Hin & Hv).
  - by apply elem_of_nil in Hin.
  - apply elem_of_cons in Hin as [<- | Hin].
    + destruct v; try done. by destruct (Hv s).
    + assert (Hrest : py_join sep elems = Raise TypeError) by (apply IH; eauto).
      destruct x; try done. destruct elems; [by apply elem_of_nil in Hin|].
      change (py_join sep (VStr s :: p :: elems))
        with (py_join sep (p :: elems) ≫= λ rest, Ok (s +:+ sep +:+ rest)).
      by rewrite Hrest.
Qed.

(** A statement with an element that is not a string (a number or a null that
    the document put where a token goes) makes the serializer raise
    [TypeError]; nothing is printed for it. *)
Theorem emit_item_not_str (kind : seq_kind) (elems : list pyval) (x : pyval)
    (indent : Z) (p : process) :
  last elems = Some x →
  (∀ children, x ≠ VList children) →
  (∃ v, v ∈ elems ∧ ∀ s, v ≠ VStr s) →
  emit_item indent (py_seq kind elems) p = (p, Raise TypeError).
Proof.
  intros Hlast Hx Hv.
  assert (Hstatement : emit_item indent (py_seq kind elems) =
                       emit_statement (spaces indent) elems).
  { destruct kind; simpl; rewrite with_last_eq, Hlast; simpl;
      destruct x; try done; by destruct (Hx l). }
  rewrite Hstatement. unfold emit_statement.
  destruct elems as [|first elems]; [done|].
  rewrite M_bind_eq. unfold lift at 1. cbn [head from_option].
  destruct (py_eq_str first "#"); rewrite M_bind_eq; unfold lift;
    by rewrite py_join_not_str.
Qed.

Lemma emit_item_not_str_witness :
  emit_item 4 (py_seq AsTuple [VStr "server_name"; VInt 8080]) (Process 0 None ["server {"] ∅) =
  (Process 0 None ["server {"] ∅, Raise TypeError).
Proof.
  apply (emit_item_not_str AsTuple [VStr "server_name"; VInt 8080] (VInt 8080) 4
           (Process 0 None ["server {"] ∅)).
  - reflexivity.
  - discriminate.
  - exists (VInt 8080). split; [|discriminate].
    apply list_elem_of_further, list_elem_of_here.
Defined.

Lemma only_prints_ret {A} (a : A) : only_prints (mret a).
Proof. intros p. exists []. simpl. by rewrite printed_nil. Qed.

Lemma only_prints_lift {A} (r : result A) : only_prints (lift r).
Proof. intros p. exists []. simpl. by rewrite printed_nil. Qed.

Lemma only_prints_print (line : string) : only_prints (print line).
Proof. intros p. by exists [line]. Qed.

Lemma only_prints_bind {A B} (m : M A) (k : A → M B) :
  only_prints m → (∀ a, only_prints (k a)) → only_prints (m ≫= k).
Proof.
  intros Hm Hk p. rewrite M_bind_eq. destruct (Hm p) as [lines Hlines].
  destruct (m p) as [q [a|e]]; simpl in Hlines; subst q.
  - destruct (Hk a (printed lines p)) as [lines' Hlines'].
    exists (lines ++ lines'). by rewrite Hlines', printed_app.
  - by exists lines.
Qed.

Lemma only_prints_emit_statement (white : string) (elems : list pyval) :
  only_prints (emit_statement white elems).
Proof.
  unfold emit_statement. apply only_prints_bind; [apply only_prints_lift|].
  intros first. destruct (py_eq_str first "#");
    (apply only_prints_bind; [apply only_prints_lift|]); intros text;
    apply only_prints_print.
Qed.

Lemma only_prints_emit_children (children : list pyval) :
  Forall (λ c, ∀ indent, only_prints (emit_item indent c)) children →
  ∀ indent, only_prints (emit_nginx_conf children indent).
Proof.
  induction 1 as [|c children Hc _ IH]; intros indent; simpl.
  - apply only_prints_ret.
  - apply only_prints_bind; [apply Hc|]. intros _. apply IH.
Qed.

Lemma only_prints_emit_item (item : pyval) :
  (∀ indent, only_prints (emit_item indent item)) ∧
  match item with
  | VList children => Forall (λ c, ∀ indent, only_prints (emit_item indent c)) children
  | _ => True
  end.
Proof.
  assert (Hseq : ∀ kind elems,
    Forall (λ v, (∀ indent, only_prints (emit_item indent v)) ∧
                 match v with
                 | VList children =>
                     Forall (λ c, ∀ indent, only_prints (emit_item indent c)) children
                 | _ => True
                 end) elems →
    ∀ indent, only_prints (emit_item indent (py_seq kind elems))).
  { intros kind elems Helems indent.
    destruct (last elems) as [x|] eqn:Hlast.
    - apply last_Some in Hlast as [front ->].
      apply Forall_app in Helems as [_ [_ Hx]%Forall_singleton].
      destruct x as [ | | | |children| | | ];
        try (destruct kind; simpl; rewrite with_last_eq, last_snoc;
             apply only_prints_emit_statement).
      rewrite emit_item_block.
      apply only_prints_bind; [apply only_prints_lift|]. intros text.
      apply only_prints_bind; [apply only_prints_print|]. intros _.
      apply only_prints_bind; [by apply only_prints_emit_children|]. intros _.
      apply only_prints_print.
    - apply last_None in Hlast as ->. destruct kind; apply only_prints_lift. }
  induction item as [ |b|z|s|l IH|l IH|d IH|a d IH] using pyval_ind.
  - split; [intros indent; apply only_prints_lift|done].
  - split; [intros indent; apply only_prints_lift|done].
  - split; [intros indent; apply only_prints_lift|done].
  - split; [intros indent; apply only_prints_emit_statement|done].
  - split; [apply (Hseq AsList l IH)|]. eapply Forall_impl; [exact IH|]. by intros c [Hc _].
  - split; [apply (Hseq AsTuple l IH)|done].
  - split; [intros indent; apply only_prints_lift|done].
  - split; [intros indent; apply only_prints_lift|done].
Qed.

(** Whatever the tree, and whether it ends or raises, the serializer leaves
    the counter and the hand-off file alone and only appends to the output:
    what was printed before stays. *)
Theorem emit_nginx_conf_only_prints (config : list pyval) (indent : Z) (p : process) :
  _upstream_counter (emit_nginx_conf config indent p).1 = _upstream_counter p ∧
  le_domain_txt (emit_nginx_conf config indent p).1 = le_domain_txt p ∧
  ∃ lines : list string, stdout (emit_nginx_conf config indent p).1 = stdout p ++ lines.
Proof.
  destruct (only_prints_emit_children config) with (indent := indent) (p := p)
    as [lines Hlines].
  { apply Forall_forall. intros c _. apply only_prints_emit_item. }
  rewrite Hlines. split_and!; [done..|]. by exists lines.
Qed.

(** ** Static file mounts: one block per mount, the type of [spa] *)

Lemma list_comprehension_Forall2 {A B} (f : A → result B) (items : list A) (ys : list B) :
  list_comprehension f items = Ok ys ↔ Forall2 (λ x y, f x = Ok y) items ys.
Proof.
  revert ys. induction items as [|x items IH]; intros ys; simpl.
  - split; [by intros [= <-]; constructor|by intros ->%Forall2_nil_inv_l].
  - split.
    + intros (y & Hy & (ys' & Hys & [= <-])%bind_ok_inv)%bind_ok_inv.
      constructor; [done|by apply IH].
    + intros (y & ys' & Hy & Hys & ->)%Forall2_cons_inv_l.
      rewrite Hy. simpl. apply IH in Hys. by rewrite Hys.
Qed.

(** [generate_static_files] succeeds exactly when every mount of the field
    does, and then returns one location block per mount, in the order of the
    input; a single string or mapping counts as a list of one mount. *)
Theorem generate_static_files_mounts (description : pyval) (items mounts : list pyval) :
  wrap_single description = VList items →
  generate_static_files description = Ok mounts ↔
  Forall2 (λ item mount, generate_static_files_entry item = Ok mount) items mounts.
Proof.
  intros Hitems. unfold generate_static_files. rewrite Hitems. simpl.
  apply list_comprehension_Forall2.
Qed.

Lemma generate_static_files_mounts_witness :
  generate_static_files (VStr "/srv/www") =
    Ok [VTuple [VStr "location"; VStr "/static"; VList [VTuple [VStr "alias"; VStr "/srv/www"]]]] ↔
  Forall2 (λ item mount, generate_static_files_entry item = Ok mount) [VStr "/srv/www"]
    [VTuple [VStr "location"; VStr "/static"; VList [VTuple [VStr "alias"; VStr "/srv/www"]]]].
Proof.
  apply (generate_static_files_mounts (VStr "/srv/www") [VStr "/srv/www"]).
  reflexivity.
Defined.

(** A mapping mount whose [spa] is set to anything but a string (a number, a
    boolean, a null, a list, ...) is refused with [spa must be a string],
    once [location] and [path] are there. *)
Theorem generate_static_files_entry_spa_type (d : list (string * pyval)) (spa : pyval) :
  is_Some (dict_lookup "location" d) →
  is_Some (dict_lookup "path" d) →
  dict_lookup "spa" d = Some spa →
  (∀ s, spa ≠ VStr s) →
  generate_static_files_entry (VDict d) = Raise (Exception "spa must be a string").
Proof.
  intros [location Hlocation] [path Hpath] Hspa Htype.
  unfold generate_static_files_entry. simpl.
  rewrite Hlocation, Hpath, Hspa. simpl.
  destruct spa; try done. by destruct (Htype s).
Qed.

Lemma generate_static_files_entry_spa_type_witness :
  generate_static_files_entry
    (VDict [("path", VStr "/srv/app"); ("location", VStr "/"); ("spa", VBool true)]) =
  Raise (Exception "spa must be a string").
Proof.
  apply (generate_static_files_entry_spa_type
           [("path", VStr "/srv/app"); ("location", VStr "/"); ("spa", VBool true)]
           (VBool true)).
  - by eexists.
  - by eexists.
  - reflexivity.
  - discriminate.
Defined.

(** ** Upstreams: the URL, the protocol, the counter *)

Lemma prefix_drop (pre s : string) :
  String.prefix pre s = true → s = pre +:+ str_drop (String.length pre) s.
Proof.
  revert pre. induction s as [|c s IH]; intros [|a pre]; simpl; try done.
  destruct (ascii_dec a c) as [->|]; [|done].
  intros Hpre. change (String c s = String c (pre +:+ str_drop (String.length pre) s)).
  by rewrite <-IH.
Qed.

Lemma match_proto_url (config name location : pyval) (u : upstream) :
  match_proto ["http"; "uwsgi"] config name location = Ok (Some u) →
  ∃ url : string,
    py_getitem config "url" = Ok (VStr url) ∧ url = u_type u +:+ "://" +:+ u_url u.
Proof.
  simpl. destruct (py_getitem config "url") as [[| | |url| | | |]|]; simpl; try done.
  change ("http" +:+ "://") with "http://". change ("uwsgi" +:+ "://") with "uwsgi://".
  destruct (String.prefix "http://" url) eqn:Hhttp.
  { intros [= <-]. exists url. split; [done|]. by apply prefix_drop in Hhttp. }
  destruct (String.prefix "uwsgi://" url) eqn:Huwsgi; [|done].
  intros [= <-]. exists url. split; [done|]. by apply prefix_drop in Huwsgi.
Qed.

Lemma upstream_record_url (server_name : string) (d : list (string * pyval)) (u : upstream) :
  upstream_record server_name d = Ok u →
  ∃ url : string,
    dict_lookup "url" d = Some (VStr url) ∧ url = u_type u +:+ "://" +:+ u_url u.
Proof.
  unfold upstream_record.
  destruct (py_getitem (VDict d) "name") as [name|]; [|done].
  destruct (py_getitem (VDict d) "location") as [location|]; [|done].
  cbn [mbind result_bind].
  destruct (match_proto _ _ name location) as [[u'|]|e] eqn:Hfound; [|done..].
  intros [= ->]. apply match_proto_url in Hfound as (url & Hurl & Heq).
  exists url. split; [|done]. simpl in Hurl. by destruct (dict_lookup "url" d) as [?|]; simplify_eq.
Qed.

(** The record of an upstream keeps the URL whole: its protocol, [://] and its
    address put together are the URL of the entry.  For a mapping entry, with
    the items it has at the call, the record also carries the entry's
    [location], and its [name] when it has one. *)
Theorem parse_single_upstream_url (server_name : string) (entry : pyval)
    (p p' : process) (u : upstream) :
  parse_single_upstream server_name entry p = (p', Ok u) →
  ∃ url : string,
    url = u_type u +:+ "://" +:+ u_url u ∧
    (entry = VStr url ∨
     ∃ d : list (string * pyval),
       mapping_items p entry = Some d ∧
       dict_lookup "url" d = Some (VStr url) ∧
       dict_lookup "location" d = Some (u_location u) ∧
       ∀ name : pyval, dict_lookup "name" d = Some name → u_name u = name).
Proof.
  intros Hrun.
  destruct (parse_single_upstream_ok_inv _ _ _ _ _ Hrun) as [[url ->] | [d Hd]].
  - exists url. split; [|by left].
    rewrite parse_single_upstream_str in Hrun. injection Hrun as _ Hu.
    destruct (String.prefix "http://" url) eqn:Hhttp.
    { injection Hu as <-. by apply prefix_drop in Hhttp. }
    destruct (String.prefix "uwsgi://" url) eqn:Huwsgi; [|done].
    injection Hu as <-. by apply prefix_drop in Huwsgi.
  - rewrite (parse_single_upstream_mapping _ _ _ _ Hd) in Hrun.
    destruct (dict_lookup "name" d) as [name|] eqn:Hname; injection Hrun as _ Hu.
    + pose proof (upstream_record_ok _ _ _ Hu) as (_ & Hn & Hl).
      apply upstream_record_url in Hu as (url & Hurl & Heq).
      exists url. split; [done|]. right. exists d. split_and!; [done..|].
      intros name'. rewrite Hn. by intros [= <-].
    + pose proof (upstream_record_ok _ _ _ Hu) as (_ & _ & Hl).
      apply upstream_record_url in Hu as (url & Hurl & Heq).
      rewrite dict_lookup_insert_ne in Hurl, Hl by done.
      exists url. split; [done|]. right. exists d. split_and!; [done..|]. by rewrite Hname.
Qed.

Lemma parse_single_upstream_url_witness :
  ∃ url : string,
    url = "uwsgi" +:+ "://" +:+ "10.0.0.2:3031" ∧
    (VAnchored 7 [("url", VStr "uwsgi://10.0.0.2:3031"); ("location", VStr "/v2")] = VStr url ∨
     ∃ d : list (string * pyval),
       mapping_items (Process 1 None [] {[ 7%N := [("url", VStr "uwsgi://10.0.0.2:3031");
                                                   ("location", VStr "/v2");
                                                   ("name", VStr "upstream-auto-1")] ]})
         (VAnchored 7 [("url", VStr "uwsgi://10.0.0.2:3031"); ("location", VStr "/v2")]) =
         Some d ∧
       dict_lookup "url" d = Some (VStr url) ∧
       dict_lookup "location" d = Some (VStr "/v2") ∧
       ∀ name : pyval, dict_lookup "name" d = Some name → VStr "upstream-auto-1" = name).
Proof.
  apply (parse_single_upstream_url "api"
           (VAnchored 7 [("url", VStr "uwsgi://10.0.0.2:3031"); ("location", VStr "/v2")])
           (Process 1 None [] {[ 7%N := [("url", VStr "uwsgi://10.0.0.2:3031");
                                         ("location", VStr "/v2");
                                         ("name", VStr "upstream-auto-1")] ]})
           (Process 1 None [] {[ 7%N := [("url", VStr "uwsgi://10.0.0.2:3031");
                                         ("location", VStr "/v2");
                                         ("name", VStr "upstream-auto-1")] ]})
           (Upstream (VStr "upstream-auto-1") (VStr "/v2") "10.0.0.2:3031" "uwsgi")).
  reflexivity.
Defined.

(** A mapping entry whose URL starts with neither [http://] nor [uwsgi://]
    (an [https://] backend, for one) is refused with the error that names the
    server; before that, an entry without a name has taken a number from the
    counter. *)
Theorem parse_single_upstream_unknown_protocol (server_name : string)
    (d : list (string * pyval)) (url : string) (p : process) :
  is_Some (dict_lookup "location" d) →
  dict_lookup "url" d = Some (VStr url) →
  String.prefix "http://" url = false →
  String.prefix "uwsgi://" url = false →
  (parse_single_upstream server_name (VDict d) p).2 =
    Raise (Exception ("Please prefix " +:+ server_name +:+
                      ".upstream url with protocol name")) ∧
  _upstream_counter (parse_single_upstream server_name (VDict d) p).1 =
    if dict_lookup "name" d is Some _ then _upstream_counter p
    else (_upstream_counter p + 1)%Z.
Proof.
  intros [location Hlocation] Hurl Hhttp Huwsgi.
  assert (Hrecord : ∀ d', dict_lookup "location" d' = Some location →
    dict_lookup "url" d' = Some (VStr url) → is_Some (dict_lookup "name" d') →
    upstream_record server_name d' =
    Raise (Exception ("Please prefix " +:+ server_name +:+
                      ".upstream url with protocol name"))).
  { intros d' Hl Hu [name Hn]. unfold upstream_record. simpl. rewrite Hn, Hl, Hu. simpl.
    change ("http" +:+ "://") with "http://". change ("uwsgi" +:+ "://") with "uwsgi://".
    by rewrite Hhttp, Huwsgi. }
  rewrite (parse_single_upstream_mapping _ _ d) by done.
  destruct (dict_lookup "name" d) as [name|] eqn:Hname; simpl.
  - split; [|done]. apply Hrecord; [done..|by eexists].
  - split; [|done]. apply Hrecord.
    + by rewrite dict_lookup_insert_ne.
    + by rewrite dict_lookup_insert_ne.
    + rewrite dict_lookup_insert. by eexists.
Qed.

Lemma parse_single_upstream_unknown_protocol_witness :
  (parse_single_upstream "api"
     (VDict [("url", VStr "https://10.0.0.9"); ("location", VStr "/")]) (Process 0 None [] ∅)).2 =
    Raise (Exception ("Please prefix " +:+ "api" +:+ ".upstream url with protocol name")) ∧
  _upstream_counter
    (parse_single_upstream "api"
       (VDict [("url", VStr "https://10.0.0.9"); ("location", VStr "/")])
       (Process 0 None [] ∅)).1 =
    if dict_lookup "name" [("url", VStr "https://10.0.0.9"); ("location", VStr "/")] is Some _
    then _upstream_counter (Process 0 None [] ∅)
    else (_upstream_counter (Process 0 None [] ∅) + 1)%Z.
Proof.
  apply (parse_single_upstream_unknown_protocol "api"
           [("url", VStr "https://10.0.0.9"); ("location", VStr "/")] "https://10.0.0.9"
           (Process 0 None [] ∅)).
  - by eexists.
  - reflexivity.
  - reflexivity.
  - reflexivity.
Defined.

(** Where every upstream entry is an object of its own (no anchored mapping
    comes twice among the entries, and none has been assigned to), the
    counter numbers the entries without a name: from a counter at [c],
    [parse_upstreams] gives one block per entry, names the anonymous ones
    [upstream-auto-(c+1)], [upstream-auto-(c+2)], ... in encounter order
    across all servers, all different, and leaves the counter at [c] plus
    their number.  The code never resets the counter. *)
Theorem parse_upstreams_counter (input_config : pyval) (p p' : process)
    (blocks : list pyval) (configs : gmap string (list upstream)) :
  unshared p (upstream_entries input_config) →
  parse_upstreams input_config p = (p', Ok (blocks, configs)) →
  length blocks = length (upstream_entries input_config) ∧
  anonymous_names (upstream_entries input_config) blocks =
    auto_name <$> seqZ (_upstream_counter p + 1)
                       (anonymous_count (upstream_entries input_config)) ∧
  NoDup (anonymous_names (upstream_entries input_config) blocks) ∧
  _upstream_counter p' =
    (_upstream_counter p + anonymous_count (upstream_entries input_config))%Z.
Proof.
  intros Hunshared (servers & q & [Hservers ->]%lift_ok_inv & H)%M_bind_ok_inv.
  apply M_bind_ok_inv in H as (items & q & [Hitems ->]%lift_ok_inv & H).
  unfold upstream_entries in Hunshared |- *. rewrite Hservers in Hunshared |- *.
  simpl in Hunshared |- *. rewrite Hitems in Hunshared |- *.
  apply parse_upstreams_servers_step in H as (blocks' & Hblocks & Hlen & Hnames & Hc & _);
    [|done].
  simpl in Hblocks. subst blocks'.
  split_and!; [done..| |done].
  rewrite Hnames. apply NoDup_fmap_2; [apply _|apply NoDup_seqZ].
Qed.

Lemma parse_upstreams_counter_witness :
  anonymous_names (upstream_entries two_servers_document)
    (match (parse_upstreams two_servers_document (Process 3 None [] ∅)).2 with
     | Ok (blocks, _) => blocks
     | Raise _ => []
     end) =
  [VStr "upstream-auto-4"; VStr "upstream-auto-5"; VStr "upstream-auto-6"].
Proof.
  destruct (parse_upstreams two_servers_document (Process 3 None [] ∅))
    as [p' [[blocks configs]|e]] eqn:Hrun; [|by vm_compute in Hrun].
  destruct (parse_upstreams_counter
              two_servers_document (Process 3 None [] ∅) p' blocks configs)
    as (_ & Hnames & _); [ | exact Hrun |].
  - split; [apply NoDup_nil_2|apply Forall_nil_2].
  - simpl. rewrite Hnames. vm_compute. reflexivity.
Defined.

(** ** Servers: the steps of [generate_server] *)

Lemma resolve_tls_frame (py_str : pyval → string) (name : string) (vars : server_locals)
    (p : process) :
  _upstream_counter (resolve_tls py_str name vars p).1 = _upstream_counter p ∧
  stdout (resolve_tls py_str name vars p).1 = stdout p ∧
  (tls vars ≠ VStr "auto" → (resolve_tls py_str name vars p).1 = p).
Proof.
  unfold resolve_tls. destruct (tls vars) as [ |[|]| |s|certs| |d|a d]; try done.
  - destruct (String.eqb_spec s "auto") as [->|Hne]; [|done].
    split_and!; [| |done].
    + unfold activate_lets_encrypt. rewrite !M_bind_eq. simpl.
      by destruct (server_name vars).
    + unfold activate_lets_encrypt. rewrite !M_bind_eq. simpl.
      by destruct (server_name vars).
  - rewrite M_bind_eq. unfold lift at 1. by destruct (for_each _ _ certs).
  - rewrite M_bind_eq. unfold lift at 1. by destruct (generate_tls_config _ _).
  - rewrite M_bind_eq. unfold lift at 1. by destruct (generate_tls_config _ _).
Qed.

(** [generate_server] never touches the counter or the output, whatever the
    entry and whether it ends or raises; and it leaves the hand-off file alone
    too unless the entry asks for [tls: auto]. *)
Theorem generate_server_frame (py_str : pyval → string) (name : string)
    (description : pyval) (upstreams : list upstream) (p : process) :
  _upstream_counter (generate_server py_str name description upstreams p).1 =
    _upstream_counter p ∧
  stdout (generate_server py_str name description upstreams p).1 = stdout p ∧
  ∀ d : list (string * pyval),
    description = VDict d → NoDup d.*1 → dict_lookup "tls" d ≠ Some (VStr "auto") →
    (generate_server py_str name description upstreams p).1 = p.
Proof.
  assert (Hdict : ∀ d : list (string * pyval),
    _upstream_counter (generate_server py_str name (VDict d) upstreams p).1 =
      _upstream_counter p ∧
    stdout (generate_server py_str name (VDict d) upstreams p).1 = stdout p ∧
    ∀ d' : list (string * pyval),
      VDict d = VDict d' → NoDup d'.*1 → dict_lookup "tls" d' ≠ Some (VStr "auto") →
      (generate_server py_str name (VDict d) upstreams p).1 = p);
    [|destruct description as [ | | | | | |d|a d];
      try (by split_and!; [done..|intros ? [=]]); [apply Hdict|];
      destruct (Hdict d) as (Hc & Ho & _); split_and!; [exact Hc|exact Ho|intros ? [=]]].
  intros d. rewrite generate_server_eq.
  destruct (for_each _ _ d) as [vars|e] eqn:Hloop; [|by split_and!].
  destruct (negb (py_truthy (server_name vars))); [by split_and!|].
  pose proof (resolve_tls_frame py_str name vars p) as (Hc & Ho & Hp).
  assert (Hfst : ∀ r : process * result (bool * list pyval),
    (match r with
     | (q, Raise e) => (q, Raise e)
     | (q, Ok (use_tls, extra)) =>
         match for_each (proxy_location py_str) extra upstreams with
         | Raise e => (q, Raise e)
         | Ok extra' => (q, Ok (server_blocks py_str name vars use_tls extra'))
         end
     end).1 = r.1).
  { intros [q [[use_tls extra]|e]]; [|done]. by destruct (for_each _ _ upstreams). }
  rewrite Hfst. split_and!; [done..|].
  intros d' [= <-] Hdup Htls. apply Hp.
  apply generate_server_items_ok in Hloop as (_ & Hvars & _); [|done].
  rewrite Hvars. destruct (dict_lookup "tls" d) as [v|]; simpl; [|done].
  intros ->. by apply Htls.
Qed.

(** A server entry that is accepted gives one block when its [tls] is
    [false], and two (the redirect to HTTPS and the TLS server) in every other
    case. *)
Theorem generate_server_block_count (py_str : pyval → string) (name : string)
    (d : list (string * pyval)) (upstreams : list upstream) (p p' : process)
    (servers : list pyval) :
  NoDup d.*1 →
  generate_server py_str name (VDict d) upstreams p = (p', Ok servers) →
  length servers = if decide (dict_lookup "tls" d = Some (VBool false)) then 1%nat else 2%nat.
Proof.
  intros Hdup. rewrite generate_server_eq.
  destruct (for_each _ _ d) as [vars|e] eqn:Hloop; [|done].
  apply generate_server_items_ok in Hloop as (_ & Hvars & _); [|done]. simpl in Hvars.
  destruct (negb (py_truthy (server_name vars))); [done|].
  destruct (resolve_tls py_str name vars p) as [q [[use_tls extra]|e]] eqn:Htls; [|done].
  apply resolve_tls_use_tls in Htls.
  destruct (for_each _ extra upstreams) as [extra'|e]; [|done].
  intros [= <- <-]. subst use_tls. rewrite Hvars.
  destruct (dict_lookup "tls" d) as [[ |[|]| | | | | | ]|]; simpl;
    by rewrite ?decide_True, ?decide_False by done.
Qed.

Lemma generate_server_block_count_witness :
  length
    match (generate_server py_str_scalar "api"
             (VDict [("server_name", VStr "api.example.com"); ("tls", VBool false)]) []
             (Process 0 None [] ∅)).2 with
    | Ok servers => servers
    | Raise _ => []
    end = 1%nat.
Proof.
  destruct (generate_server py_str_scalar "api"
              (VDict [("server_name", VStr "api.example.com"); ("tls", VBool false)]) []
              (Process 0 None [] ∅)) as [p' [servers|e]] eqn:Hrun; [|by vm_compute in Hrun].
  apply (generate_server_block_count py_str_scalar "api"
           [("server_name", VStr "api.example.com"); ("tls", VBool false)] []
           (Process 0 None [] ∅) p' servers).
  - apply (bool_decide_unpack _). vm_compute. exact I.
  - exact Hrun.
Defined.

Lemma generate_server_frame_witness :
  (generate_server py_str_scalar "api"
     (VDict [("server_name", VStr "api.example.com"); ("tls", VBool false)]) []
     (Process 0 (Some "www.example.com") [] ∅)).1 = Process 0 (Some "www.example.com") [] ∅.
Proof.
  apply (proj2 (proj2 (generate_server_frame py_str_scalar "api"
           (VDict [("server_name", VStr "api.example.com"); ("tls", VBool false)]) []
           (Process 0 (Some "www.example.com") [] ∅)))
           [("server_name", VStr "api.example.com"); ("tls", VBool false)]).
  - reflexivity.
  - apply (bool_decide_unpack _). vm_compute. exact I.
  - discriminate.
Defined.

Lemma for_each_app {A B} (f : B → A → result B) (xs ys : list A) (acc : B) :
  for_each f acc (xs ++ ys) = for_each f acc xs ≫= λ acc', for_each f acc' ys.
Proof.
  revert acc. induction xs as [|x xs IH]; intros acc; [done|].
  simpl. destruct (f acc x) as [acc'|e]; [apply IH|done].
Qed.

(** An option that is not one of the six is refused: when the options before
    it are accepted, [generate_server] raises [unknown option
    <name>.<option>] and changes nothing. *)
Theorem generate_server_unknown_option (py_str : pyval → string) (name : string)
    (before after : list (string * pyval)) (item : string) (content : pyval)
    (vars : server_locals) (upstreams : list upstream) (p : process) :
  item ∉ server_options →
  for_each (generate_server_item name) (ServerLocals VNone VNone true []) before = Ok vars →
  generate_server py_str name (VDict (before ++ (item, content) :: after)) upstreams p =
  (p, Raise (Exception ("unknown option " +:+ name +:+ "." +:+ item))).
Proof.
  intros Hunknown Hbefore.
  assert (Hitem : generate_server_item name vars (item, content) =
                  Raise (Exception ("unknown option " +:+ name +:+ "." +:+ item))).
  { unfold generate_server_item, server_options in *.
    repeat match goal with
           | |- context [String.eqb item ?s] =>
               destruct (String.eqb_spec item s) as [->|_];
               [exfalso; apply Hunknown;
                repeat first [apply list_elem_of_here | apply list_elem_of_further]|]
           end.
    done. }
  assert (Hloop : for_each (generate_server_item name) (ServerLocals VNone VNone true [])
                    (before ++ (item, content) :: after) =
                  Raise (Exception ("unknown option " +:+ name +:+ "." +:+ item))).
  { rewrite for_each_app, Hbefore.
    change (for_each (generate_server_item name) vars ((item, content) :: after) =
            Raise (Exception ("unknown option " +:+ name +:+ "." +:+ item))).
    change (generate_server_item name vars (item, content) ≫=
              (λ acc', for_each (generate_server_item name) acc' after) =
            Raise (Exception ("unknown option " +:+ name +:+ "." +:+ item))).
    by rewrite Hitem. }
  by rewrite generate_server_eq, Hloop.
Qed.

Lemma generate_server_unknown_option_witness :
  generate_server py_str_scalar "www"
    (VDict ([("server_name", VStr "www.example.com")] ++
            ("servername", VStr "example.com") :: [("tls", VBool false)])) []
    (Process 0 None [] ∅) =
  (Process 0 None [] ∅, Raise (Exception ("unknown option " +:+ "www" +:+ "." +:+ "servername"))).
Proof.
  apply (generate_server_unknown_option py_str_scalar "www"
           [("server_name", VStr "www.example.com")] [("tls", VBool false)]
           "servername" (VStr "example.com")
           (ServerLocals (VStr "www.example.com") VNone true []) [] (Process 0 None [] ∅)).
  - apply (bool_decide_unpack _). vm_compute. exact I.
  - reflexivity.
Defined.

(** [server_name] is mandatory: an entry whose options are accepted but whose
    [server_name] is missing, or empty (an empty string, a null, [false], 0,
    an empty list), is refused with [server_name is required], before [tls] is
    looked at. *)
Theorem generate_server_name_required (py_str : pyval → string) (name : string)
    (d : list (string * pyval)) (vars : server_locals) (upstreams : list upstream)
    (p : process) :
  NoDup d.*1 →
  for_each (generate_server_item name) (ServerLocals VNone VNone true []) d = Ok vars →
  py_truthy (default VNone (dict_lookup "server_name" d)) = false →
  generate_server py_str name (VDict d) upstreams p =
  (p, Raise (Exception "server_name is required")).
Proof.
  intros Hdup Hloop Hfalsy. rewrite generate_server_eq, Hloop.
  apply generate_server_items_ok in Hloop as (Hname & _); [|done].
  simpl in Hname. by rewrite Hname, Hfalsy.
Qed.

Lemma generate_server_name_required_witness :
  generate_server py_str_scalar "www" (VDict [("tls", VStr "auto")]) [] (Process 0 None [] ∅) =
  (Process 0 None [] ∅, Raise (Exception "server_name is required")).
Proof.
  apply (generate_server_name_required py_str_scalar "www" [("tls", VStr "auto")]
           (ServerLocals VNone (VStr "auto") true []) [] (Process 0 None [] ∅)).
  - apply (bool_decide_unpack _). vm_compute. exact I.
  - reflexivity.
  - reflexivity.
Defined.

Lemma proxy_locations_app (py_str : pyval → string) (upstreams : list upstream)
    (extra extra' : list pyval) :
  for_each (proxy_location py_str) extra upstreams = Ok extra' →
  ∃ locations, extra' = extra ++ locations ∧ length locations = length upstreams.
Proof.
  revert extra. induction upstreams as [|u upstreams IH]; intros extra; simpl.
  - intros [= <-]. exists []. by rewrite (right_id_L [] (++)).
  - intros (extra1 & (config & _ & [= <-])%bind_ok_inv & Hrest)%bind_ok_inv.
    apply IH in Hrest as (locations & -> & Hlen).
    eexists (_ :: locations). rewrite <-(assoc_L (++)). simpl. by rewrite Hlen.
Qed.

(** [tls: auto] for a domain given as a string: an accepted entry leaves the
    domain in the hand-off file, and its TLS block (the second of two) holds
    the certificate, key and chain of [live/<domain>/] under
    [/etc/nginx/certs/] and the location of the ACME challenge. *)
Theorem generate_server_tls_auto (py_str : pyval → string) (name domain : string)
    (d : list (string * pyval)) (upstreams : list upstream) (p p' : process)
    (servers : list pyval) :
  NoDup d.*1 →
  dict_lookup "tls" d = Some (VStr "auto") →
  dict_lookup "server_name" d = Some (VStr domain) →
  generate_server py_str name (VDict d) upstreams p = (p', Ok servers) →
  le_domain_txt p' = Some domain ∧
  ∃ (redirect : pyval) (children : list pyval),
    servers = [redirect; VTuple [VStr "server"; VList children]] ∧
    directive ["ssl_certificate";
               "/etc/nginx/certs/live/" +:+ domain +:+ "/fullchain.pem"] ∈ children ∧
    directive ["ssl_certificate_key";
               "/etc/nginx/certs/live/" +:+ domain +:+ "/privkey.pem"] ∈ children ∧
    directive ["ssl_trusted_certificate";
               "/etc/nginx/certs/live/" +:+ domain +:+ "/chain.pem"] ∈ children ∧
    VTuple [ VStr "location"; VStr "/.well-known/acme-challenge";
             VList [directive ["root"; "/var/www/letsencrypt"]] ] ∈ children.
Proof.
  intros Hdup Htls Hdomain. rewrite generate_server_eq.
  destruct (for_each _ _ d) as [vars|e] eqn:Hloop; [|done].
  apply generate_server_items_ok in Hloop as (Hname & Hvars & _); [|done].
  rewrite Htls in Hvars. rewrite Hdomain in Hname. simpl in Hname, Hvars.
  destruct (negb (py_truthy (server_name vars))); [done|].
  assert (Hresolve : resolve_tls py_str name vars p =
    (Process (_upstream_counter p) (Some domain) (stdout p) (anchored p),
     Ok (true, extra_config vars ++
               [ directive ["ssl_certificate";
                            "/etc/nginx/certs/live/" +:+ domain +:+ "/fullchain.pem"];
                 directive ["ssl_certificate_key";
                            "/etc/nginx/certs/live/" +:+ domain +:+ "/privkey.pem"];
                 directive ["ssl_trusted_certificate";
                            "/etc/nginx/certs/live/" +:+ domain +:+ "/chain.pem"] ] ++
               [ VTuple [ VStr "location"; VStr "/.well-known/acme-challenge";
                          VList [directive ["root"; "/var/www/letsencrypt"]] ] ]))).
  { unfold resolve_tls. rewrite Hvars, Hname. reflexivity. }
  rewrite Hresolve.
  destruct (for_each _ _ upstreams) as [extra'|e] eqn:Hproxy; [|done].
  apply proxy_locations_app in Hproxy as (locations & -> & _).
  intros [= <- <-]. split; [done|].
  eexists _, ([VTuple [VStr "#"; VStr name]] ++
              base_config_https py_str (server_name vars) (check_host_header vars) ++
              (extra_config vars ++
               [ directive ["ssl_certificate";
                            "/etc/nginx/certs/live/" +:+ domain +:+ "/fullchain.pem"];
                 directive ["ssl_certificate_key";
                            "/etc/nginx/certs/live/" +:+ domain +:+ "/privkey.pem"];
                 directive ["ssl_trusted_certificate";
                            "/etc/nginx/certs/live/" +:+ domain +:+ "/chain.pem"] ] ++
               [ VTuple [ VStr "location"; VStr "/.well-known/acme-challenge";
                          VList [directive ["root"; "/var/www/letsencrypt"]] ] ]) ++
              locations).
  split; [reflexivity|].
  assert (Hin : ∀ (c : pyval) (comment base extra certs locations' : list pyval),
    c ∈ certs → c ∈ comment ++ base ++ (extra ++ certs) ++ locations').
  { intros c comment base extra certs locations' Hc. rewrite !elem_of_app. auto. }
  split_and!; apply Hin; rewrite elem_of_app, !elem_of_cons; auto.
Qed.

Lemma generate_server_tls_auto_witness :
  le_domain_txt
    (generate_server py_str_scalar "www"
       (VDict [("server_name", VStr "www.example.com"); ("tls", VStr "auto")]) []
       (Process 0 (Some "old.example.com") [] ∅)).1 = Some "www.example.com".
Proof.
  destruct (generate_server py_str_scalar "www"
              (VDict [("server_name", VStr "www.example.com"); ("tls", VStr "auto")]) []
              (Process 0 (Some "old.example.com") [] ∅))
    as [p' [servers|e]] eqn:Hrun; [|by vm_compute in Hrun].
  apply (generate_server_tls_auto py_str_scalar "www" "www.example.com"
           [("server_name", VStr "www.example.com"); ("tls", VStr "auto")] []
           (Process 0 (Some "old.example.com") [] ∅) p' servers).
  - apply (bool_decide_unpack _). vm_compute. exact I.
  - reflexivity.
  - reflexivity.
  - exact Hrun.
Defined.

(** [tls: auto] with a [server_name] that is not a string (a number, a list,
    ...): the hand-off file has already been opened for writing, so it is left
    empty, and [generate_server] stops on the [TypeError] of [f.write]. *)
Theorem generate_server_tls_auto_not_str (py_str : pyval → string) (name : string)
    (d : list (string * pyval)) (vars : server_locals) (domain : pyval)
    (upstreams : list upstream) (p : process) :
  NoDup d.*1 →
  for_each (generate_server_item name) (ServerLocals VNone VNone true []) d = Ok vars →
  dict_lookup "tls" d = Some (VStr "auto") →
  dict_lookup "server_name" d = Some domain →
  py_truthy domain = true →
  (∀ s, domain ≠ VStr s) →
  generate_server py_str name (VDict d) upstreams p =
  (Process (_upstream_counter p) (Some "") (stdout p) (anchored p), Raise TypeError).
Proof.
  intros Hdup Hloop Htls Hdomain Htruthy Htype. rewrite generate_server_eq, Hloop.
  apply generate_server_items_ok in Hloop as (Hname & Hvars & _); [|done].
  rewrite Htls in Hvars. rewrite Hdomain in Hname. simpl in Hname, Hvars.
  rewrite Hname, Htruthy. simpl. unfold resolve_tls. rewrite Hvars, Hname. simpl.
  unfold activate_lets_encrypt. rewrite !M_bind_eq. simpl.
  destruct domain; try done. by destruct (Htype s).
Qed.

Lemma generate_server_tls_auto_not_str_witness :
  generate_server py_str_scalar "www"
    (VDict [("server_name", VInt 8080); ("tls", VStr "auto")]) []
    (Process 0 (Some "old.example.com") [] ∅) =
  (Process 0 (Some "") [] ∅, Raise TypeError).
Proof.
  apply (generate_server_tls_auto_not_str py_str_scalar "www"
           [("server_name", VInt 8080); ("tls", VStr "auto")]
           (ServerLocals (VInt 8080) (VStr "auto") true []) (VInt 8080) []
           (Process 0 (Some "old.example.com") [] ∅)).
  - apply (bool_decide_unpack _). vm_compute. exact I.
  - reflexivity.
  - reflexivity.
  - reflexivity.
  - reflexivity.
  - discriminate.
Defined.

(** The loop over the upstreams of a server stops at the first record whose
    type is neither [uwsgi] nor [http], with the [NotImplementedError] that
    names that type. *)
Theorem proxy_locations_not_implemented (py_str : pyval → string)
    (known rest : list upstream) (u : upstream) (extra_config : list pyval) :
  Forall known_type known →
  u_type u ≠ "uwsgi" → u_type u ≠ "http" →
  for_each (proxy_location py_str) extra_config (known ++ u :: rest) =
  Raise (NotImplementedError
           ("Someone was naughty and did not implement the " +:+ u_type u +:+
            " upstream type")).
Proof.
  intros Hknown Huwsgi Hhttp. rewrite for_each_app.
  pose proof (proxy_locations_ok py_str known Hknown extra_config) as Hok.
  destruct (for_each (proxy_location py_str) extra_config known) as [extra'|e]; [|done].
  change (proxy_location py_str extra' u ≫=
            (λ acc', for_each (proxy_location py_str) acc' rest) =
          Raise (NotImplementedError
                   ("Someone was naughty and did not implement the " +:+ u_type u +:+
                    " upstream type"))).
  unfold proxy_location.
  destruct (String.eqb_spec (u_type u) "uwsgi") as [|_]; [done|].
  destruct (String.eqb_spec (u_type u) "http") as [|_]; [done|]. done.
Qed.

Lemma proxy_locations_not_implemented_witness :
  for_each (proxy_location py_str_scalar) []
    ([Upstream (VStr "app") (VStr "/") "10.0.0.1:8000" "http"] ++
     Upstream (VStr "cgi") (VStr "/cgi") "10.0.0.2:9000" "fastcgi" :: []) =
  Raise (NotImplementedError
           ("Someone was naughty and did not implement the " +:+ "fastcgi" +:+
            " upstream type")).
Proof.
  apply (proxy_locations_not_implemented py_str_scalar
           [Upstream (VStr "app") (VStr "/") "10.0.0.1:8000" "http"] []
           (Upstream (VStr "cgi") (VStr "/cgi") "10.0.0.2:9000" "fastcgi") []).
  - apply Forall_singleton. by left.
  - discriminate.
  - discriminate.
Defined.

(** ** Global HTTP settings: what the merge keeps *)

(** The first tokens of the table after one round of the loop. *)
Lemma generate_http_entry_tokens (http after : list pyval) (entry : pyval) :
  Forall has_first_token http →
  generate_http_entry http entry = Ok after →
  Forall has_first_token after ∧
  (first_token <$> after = first_token <$> http ∨
   ∃ key, first_token <$> after = (first_token <$> http) ++ [Some key] ∧
          (key = "include" ∨ Some key ∉ first_token <$> http)).
Proof.
  intros Hwf. unfold generate_http_entry.
  destruct entry as [ | | |line| | | | ]; try done. simpl.
  destruct (str_split_cons " " line) as (key & rest & ->). simpl.
  assert (Hentry : has_first_token (VList (VStr key :: (VStr <$> rest)))) by by eexists.
  destruct (String.eqb_spec key "include") as [->|Hne].
  { intros [= <-]. split; [apply Forall_app; split; [done|by apply Forall_singleton]|].
    right. exists "include". rewrite fmap_app. split; [done|by left]. }
  destruct (find_option_spec key http 0 Hwf)
    as [(idx & setting & -> & Hlook & Hfirst & _) | [-> Hnone]]; simpl; intros [= <-].
  - split; [by apply Forall_insert|]. left.
    rewrite list_fmap_insert. apply list_insert_id.
    rewrite list_lookup_fmap, Hlook. simpl. by rewrite Hfirst.
  - split; [apply Forall_app; split; [done|by apply Forall_singleton]|].
    right. exists key. rewrite fmap_app. split; [done|]. right.
    intros (setting & Hfirst & Hin)%list_elem_of_fmap. by destruct (Hnone setting Hin).
Qed.

Lemma generate_http_invariant (app_conf : pyval) (http : list pyval) :
  generate_http app_conf = Ok http →
  Forall has_first_token http ∧
  first_token <$> _NGINX_HTTP `prefix_of` first_token <$> http ∧
  keywords_once http.
Proof.
  intros (raw & _ & (entries & _ & Hloop)%bind_ok_inv)%bind_ok_inv.
  eapply (for_each_invariant generate_http_entry
            (λ table, Forall has_first_token table ∧
                      first_token <$> _NGINX_HTTP `prefix_of` first_token <$> table ∧
                      keywords_once table)); [|exact Hloop|].
  - intros table entry after Hstep (Hwf & Hprefix & Honce).
    destruct (generate_http_entry_tokens table after entry Hwf Hstep)
      as (Hwf' & [Hsame | (key & Happ & Hkey)]).
    + split_and!; [done| |]; unfold keywords_once; by rewrite Hsame.
    + split_and!; [done| |]; unfold keywords_once; rewrite Happ.
      * by apply prefix_app_r.
      * rewrite filter_app. destruct Hkey as [-> | Hfresh].
        -- rewrite filter_cons_False by (intros H; by apply H).
           by rewrite filter_nil, (right_id_L [] (++)).
        -- destruct (decide (key = "include")) as [-> | Hne].
           { rewrite filter_cons_False by (intros H; by apply H).
             by rewrite filter_nil, (right_id_L [] (++)). }
           rewrite filter_cons_True, filter_nil by congruence.
           apply NoDup_app. split_and!; [done| |apply NoDup_singleton].
           intros token [_ Hin]%list_elem_of_filter ->%list_elem_of_singleton. done.
  - split_and!; [apply _NGINX_HTTP_first_tokens|done|].
    apply (bool_decide_unpack _). vm_compute. exact I.
Qed.

(** The merge never drops or moves a baseline setting: in the table that
    [generate_http] returns, the entries at the baseline positions still have
    the baseline keywords, in the baseline order; overrides change their
    values and new settings come after them. *)
Theorem generate_http_keeps_baseline (app_conf : pyval) (http : list pyval) :
  generate_http app_conf = Ok http →
  first_token <$> _NGINX_HTTP `prefix_of` first_token <$> http ∧
  (length _NGINX_HTTP ≤ length http)%nat.
Proof.
  intros (_ & Hprefix & _)%generate_http_invariant. split; [done|].
  apply prefix_length in Hprefix. by rewrite !length_fmap in Hprefix.
Qed.

Lemma generate_http_keeps_baseline_witness :
  first_token <$> _NGINX_HTTP `prefix_of`
    first_token <$>
      match generate_http
              (VDict [("http_raw_options",
                       VList [VStr "gzip off"; VStr "client_max_body_size 8m"])]) with
      | Ok http => http
      | Raise _ => []
      end.
Proof.
  destruct (generate_http
              (VDict [("http_raw_options",
                       VList [VStr "gzip off"; VStr "client_max_body_size 8m"])]))
    as [http|e] eqn:Hrun; [|by vm_compute in Hrun].
  exact (proj1 (generate_http_keeps_baseline _ http Hrun)).
Defined.

(** Whatever the raw options, the table that [generate_http] returns has no
    keyword twice, [include] apart: an override never leaves the setting it
    overrides behind. *)
Theorem generate_http_keywords_once (app_conf : pyval) (http : list pyval) :
  generate_http app_conf = Ok http → keywords_once http.
Proof. by intros (_ & _ & Honce)%generate_http_invariant. Qed.

Lemma generate_http_keywords_once_witness :
  keywords_once
    match generate_http
            (VDict [("http_raw_options",
                     VList [VStr "gzip off"; VStr "include a.conf"; VStr "gzip on";
                            VStr "include b.conf"])]) with
    | Ok http => http
    | Raise _ => []
    end.
Proof.
  destruct (generate_http
              (VDict [("http_raw_options",
                       VList [VStr "gzip off"; VStr "include a.conf"; VStr "gzip on";
                              VStr "include b.conf"])]))
    as [http|e] eqn:Hrun; [|by vm_compute in Hrun].
  exact (generate_http_keywords_once _ http Hrun).
Defined.

(** ** The run: nothing is printed before generation has succeeded *)

Lemma silent_ret {A} (a : A) : silent (mret a).
Proof. by intros p. Qed.

Lemma silent_lift {A} (r : result A) : silent (lift r).
Proof. by intros p. Qed.

Lemma silent_raise {A} (e : exn) : silent (@raise A e).
Proof. by intros p. Qed.

Lemma silent_incr : silent incr_upstream_counter.
Proof. by intros p. Qed.

Lemma silent_set_le_domain_txt (contents : string) : silent (set_le_domain_txt contents).
Proof. by intros p. Qed.

Lemma silent_current (v : pyval) : silent (current v).
Proof. by intros p. Qed.

Lemma silent_py_setitem (v : pyval) (key : string) (x : pyval) : silent (py_setitem v key x).
Proof. intros p. by destruct v. Qed.

Lemma silent_bind {A B} (m : M A) (k : A → M B) :
  silent m → (∀ a, silent (k a)) → silent (m ≫= k).
Proof.
  intros Hm Hk p. rewrite M_bind_eq. specialize (Hm p).
  destruct (m p) as [q [a|e]]; simpl in Hm; [|done]. by rewrite Hk.
Qed.

Lemma silent_for_each_M {A B} (f : B → A → M B) (xs : list A) :
  (∀ acc x, silent (f acc x)) → ∀ acc, silent (for_each_M f acc xs).
Proof.
  intros Hf. induction xs as [|x xs IH]; intros acc; simpl.
  - apply silent_ret.
  - by apply silent_bind.
Qed.

Create HintDb silent.
#[local] Hint Resolve silent_ret silent_lift silent_raise silent_incr
  silent_set_le_domain_txt silent_current silent_py_setitem : silent.

(** Goes through the binds and the case distinctions of a computation. *)
Ltac silent :=
  repeat first
    [ progress auto with silent
    | apply silent_bind; [|intros ?]
    | apply silent_for_each_M; intros ? ?
    | match goal with
      | |- silent (match ?x with _ => _ end) => destruct x
      | |- silent (let '(_, _) := ?x in _) => destruct x
      end ].

Lemma silent_parse_upstreams (input_config : pyval) : silent (parse_upstreams input_config).
Proof.
  unfold parse_upstreams, parse_upstreams_server, parse_upstreams_entry,
    parse_single_upstream.
  silent.
Qed.

Lemma silent_generate_servers (py_str : pyval → string) (app_conf : pyval)
    (upstreams : gmap string (list upstream)) :
  silent (generate_servers py_str app_conf upstreams).
Proof.
  unfold generate_servers, generate_server, resolve_tls, activate_lets_encrypt.
  silent.
Qed.

(** A validation failure leaves no partial output.  If [main] has printed
    anything, then either the file was missing and the one line printed is
    the message about it, or the document was loaded and the upstreams, every
    server and the HTTP settings had all been generated without an exception.
    (Only the serializer itself can stop in the middle of the text.) *)
Theorem main_prints_after_generation (py_str : pyval → string) (sys_stderr : string)
    (argv : list string) (safe_load : string → result pyval) (p : process) :
  stdout (main py_str sys_stderr argv safe_load p).1 ≠ stdout p →
  ∃ path : string, argv !! 1%nat = Some path ∧
    ((safe_load path = Raise FileNotFoundError ∧
      (main py_str sys_stderr argv safe_load p).2 = Raise (SystemExit 1) ∧
      stdout (main py_str sys_stderr argv safe_load p).1 =
        stdout p ++ [sys_stderr +:+ " " +:+ "This image requires " +:+ path +:+
                     " to be present. Did you forget to docker-mount it?"]) ∨
     ∃ (app_conf : pyval) (blocks servers http : list pyval)
       (configs : gmap string (list upstream)) (q q' : process),
       safe_load path = Ok app_conf ∧
       parse_upstreams app_conf (new_document p).1 = (q, Ok (blocks, configs)) ∧
       generate_servers py_str app_conf configs q = (q', Ok servers) ∧
       generate_http app_conf = Ok http).
Proof.
  rewrite !main_cases.
  destruct (argv !! 1%nat) as [path|]; [|by intros []].
  intros Hprinted. exists path. split; [done|]. revert Hprinted.
  destruct (safe_load path) as [app_conf|e].
  - intros Hprinted. right. revert Hprinted. rewrite M_bind_eq.
    pose proof (silent_parse_upstreams app_conf (new_document p).1) as Hq.
    destruct (parse_upstreams app_conf (new_document p).1)
      as [q [[blocks configs]|e]] eqn:Hupstreams; simpl in Hq; [|by intros []].
    rewrite M_bind_eq.
    pose proof (silent_generate_servers py_str app_conf configs q) as Hq'.
    destruct (generate_servers py_str app_conf configs q) as [q' [servers|e]] eqn:Hservers;
      simpl in Hq'; [|intros []; simpl; congruence].
    rewrite M_bind_eq. unfold lift at 1.
    destruct (generate_http app_conf) as [http|e] eqn:Hhttp; [|intros []; simpl; congruence].
    intros _. by exists app_conf, blocks, servers, http, configs, q, q'.
  - destruct e; try by intros []. intros _. by left.
Qed.

Lemma main_prints_after_generation_witness :
  ∃ path : string, ["appconf.py"; "/etc/app.yml"] !! 1%nat = Some path ∧
    (((λ _ : string, @Raise pyval FileNotFoundError) path = Raise FileNotFoundError ∧
      (main py_str_scalar "<stderr>" ["appconf.py"; "/etc/app.yml"]
         (λ _, Raise FileNotFoundError) (Process 0 None [] ∅)).2 = Raise (SystemExit 1) ∧
      stdout (main py_str_scalar "<stderr>" ["appconf.py"; "/etc/app.yml"]
                (λ _, Raise FileNotFoundError) (Process 0 None [] ∅)).1 =
        stdout (Process 0 None [] ∅) ++
          ["<stderr>" +:+ " " +:+ "This image requires " +:+ path +:+
           " to be present. Did you forget to docker-mount it?"]) ∨
     ∃ (app_conf : pyval) (blocks servers http : list pyval)
       (configs : gmap string (list upstream)) (q q' : process),
       (λ _ : string, @Raise pyval FileNotFoundError) path = Ok app_conf ∧
       parse_upstreams app_conf (new_document (Process 0 None [] ∅)).1 =
         (q, Ok (blocks, configs)) ∧
       generate_servers py_str_scalar app_conf configs q = (q', Ok servers) ∧
       generate_http app_conf = Ok http).
Proof.
  apply (main_prints_after_generation py_str_scalar "<stderr>" ["appconf.py"; "/etc/app.yml"]
           (λ _, Raise FileNotFoundError) (Process 0 None [] ∅)).
  vm_compute. discriminate.
Defined.
